(** * nta-backend: the note-taking HTTP backend of [main.go]

    A shallow embedding of the request handlers of [main.go] over an explicit
    model of the SQLite store they talk to, and the properties of the
    request/response contract proved (or refuted) on it.

    Layout: data model, store statements, handlers, serial and overlapping
    runs of the server, then the theorems. *)

From Stdlib Require Import ZArith List String Ascii Bool Lia.
From Stdlib Require Import Permutation Sorted.
Import ListNotations.
Open Scope Z_scope.

(* ================================================================== *)
(** * Data model *)

(** [time.Time]: an instant together with the UTC offset of the location it
    is expressed in.  [instant] counts nanoseconds from Go's zero instant
    (January 1, year 1, 00:00:00 UTC); [offset] is in minutes east of UTC.
    [time.Now()] returns the current instant with the offset the server's
    local time zone has at that instant. *)
Record Time := mkTime {
  instant : Z;
  offset : Z
}.

(** A time in UTC; a number written where a [Time] is expected is read this
    way. *)
Definition utc (i : Z) : Time := mkTime i 0.
Coercion utc : Z >-> Time.

(** [time.Time{}]. *)
Definition zeroTime : Time := utc 0.

(** *** Timestamps as the store keeps them

    The driver binds a [time.Time] as the text
    ["2006-01-02 15:04:05.999999999-07:00"]: the wall clock of the time's own
    location, then its offset.  The column keeps that text and compares it
    byte by byte.  For years 0000 to 9999 the date and time fields have a
    fixed width, a fraction compares as its value (the sign of the offset
    sorts before ['.'] and before every digit), and ['+'] sorts before ['-'],
    so the order of two texts is the order of their wall clocks and, for
    equal wall clocks, the order of the offset texts. *)
Definition minute : Z := 60000000000.

Definition wall (t : Time) : Z := instant t + offset t * minute.

Definition zone_leb (a b : Z) : bool :=
  if 0 <=? a then (if 0 <=? b then a <=? b else true)
  else (if 0 <=? b then false else b <=? a).

Definition stored_leb (a b : Time) : bool :=
  (wall a <? wall b) || ((wall a =? wall b) && zone_leb (offset a) (offset b)).

(** [type Note struct]. *)
Record Note := mkNote {
  ID : Z;
  Title : string;
  Content : string;
  CreatedAt : Time;
  LastModified : Time
}.

(** [type Line struct]; the fields are [ID], [NoteID], [Content] and
    [Timestamp] in the source. *)
Record Line := mkLine {
  LineID : Z;
  NoteID : Z;
  LineContent : string;
  Timestamp : Time
}.

Definition zeroNote : Note := mkNote 0 "" "" zeroTime zeroTime.
Definition zeroLine : Line := mkLine 0 0 "" zeroTime.

(** Go's [int] on the 64-bit targets the Dockerfile builds for, which is also
    the largest rowid SQLite hands out. *)
Definition maxInt : Z := 9223372036854775807.

(** ** Path parameters

    The router only binds the note handlers under [{id:[0-9]+}], so the
    [vars["id"]] they read is a non-empty string of decimal digits. *)
Inductive digit := D0 | D1 | D2 | D3 | D4 | D5 | D6 | D7 | D8 | D9.

Definition digit_val (d : digit) : Z :=
  match d with
  | D0 => 0 | D1 => 1 | D2 => 2 | D3 => 3 | D4 => 4
  | D5 => 5 | D6 => 6 | D7 => 7 | D8 => 8 | D9 => 9
  end.

Definition PathID := (digit * list digit)%type.

(** The number the digits spell (leading zeros allowed, no upper bound). *)
Definition pathValue (p : PathID) : Z :=
  fold_left (fun acc d => 10 * acc + digit_val d) (fst p :: snd p) 0.

(** [parseInt]: [fmt.Sscanf(s, "%d", &i)] with the error dropped.  On a digit
    string the scan reads the whole token; when the number does not fit an
    [int] the scan fails and [i] keeps its zero value. *)
Definition parseInt (s : PathID) : Z :=
  if pathValue s <=? maxInt then pathValue s else 0.

(** ** Request bodies

    A body as [json.NewDecoder(r.Body).Decode(&v)] sees it: either the decoder
    returns an error ([Invalid]: no JSON, a non-object, a member of the wrong
    type), or it fills the struct from the members that are present.  A member
    that is absent or [null] is [None] and leaves the field at Go's zero
    value. *)
Record NoteFields := mkNoteFields {
  j_id : option Z;
  j_title : option string;
  j_content : option string;
  j_created_at : option Time;
  j_last_modified : option Time
}.

Record LineFields := mkLineFields {
  j_line_id : option Z;
  j_note_id : option Z;
  j_line_content : option string;
  j_timestamp : option Time
}.

Inductive Body (F : Type) : Type :=
| Invalid : Body F
| Members : F -> Body F.
Arguments Invalid {F}.
Arguments Members {F} _.

(** ** Errors and responses *)
Inductive error :=
| ErrNoRows
| ErrDecode
| ErrStore (msg : string).

Definition Error (e : error) : string :=
  match e with
  | ErrNoRows => "sql: no rows in result set"
  | ErrDecode => "invalid JSON"
  | ErrStore msg => msg
  end.

Inductive result (A : Type) : Type :=
| Ok : A -> result A
| Err : error -> result A.
Arguments Ok {A} _.
Arguments Err {A} _.

(** The value handed to [respondWithJSON] (the payload before
    [json.Marshal]). *)
Inductive Payload :=
| JNote (n : Note)
| JNotes (ns : list Note)
| JLine (l : Line)
| JLines (ls : list Line)
| JMap (m : list (string * string)).

Record Response := mkResponse {
  code : Z;
  payload : Payload
}.

Module http.
Definition StatusOK : Z := 200.
Definition StatusCreated : Z := 201.
Definition StatusBadRequest : Z := 400.
Definition StatusNotFound : Z := 404.
Definition StatusInternalServerError : Z := 500.
End http.

Definition respondWithJSON (c : Z) (p : Payload) : Response := mkResponse c p.

Definition respondWithError (c : Z) (message : string) : Response :=
  respondWithJSON c (JMap [("error"%string, message)]).

(** [json.Decoder.Decode] into a zero [Note] / [Line]. *)
Definition or_zero {A} (z : A) (o : option A) : A :=
  match o with Some a => a | None => z end.

Definition decodeNote (b : Body NoteFields) : result Note :=
  match b with
  | Invalid => Err ErrDecode
  | Members f =>
      Ok (mkNote (or_zero (ID zeroNote) (j_id f))
                 (or_zero (Title zeroNote) (j_title f))
                 (or_zero (Content zeroNote) (j_content f))
                 (or_zero (CreatedAt zeroNote) (j_created_at f))
                 (or_zero (LastModified zeroNote) (j_last_modified f)))
  end.

Definition decodeLine (b : Body LineFields) : result Line :=
  match b with
  | Invalid => Err ErrDecode
  | Members f =>
      Ok (mkLine (or_zero (LineID zeroLine) (j_line_id f))
                 (or_zero (NoteID zeroLine) (j_note_id f))
                 (or_zero (LineContent zeroLine) (j_line_content f))
                 (or_zero (Timestamp zeroLine) (j_timestamp f)))
  end.

(* ================================================================== *)
(** * The store

    The SQLite database behind [s.db]: the two tables of [Initialize]'s
    [CREATE TABLE] statements, each with the counter its [AUTOINCREMENT]
    keeps, and the connection's [foreign_keys] setting.  Rows are kept in
    rowid order.  Every column is written by the handlers from a Go value, so
    no column is [NULL]. *)
Record DB := mkDB {
  foreign_keys : bool;
  notes : list Note;
  notes_seq : Z;
  lines : list Line;
  lines_seq : Z
}.

(** [WHERE id = ?] with the path string bound as text: the integer column
    gives the parameter numeric affinity, so the digits are compared as a
    number (a value beyond the rowid range equals no rowid). *)
Definition sql_int (p : PathID) : Z := pathValue p.

Definition note_has_id (v : Z) (n : Note) : bool := ID n =? v.
Definition line_of_note (v : Z) (l : Line) : bool := NoteID l =? v.

(** ** [ORDER BY]

    A stable insertion sort of the rows as they come in rowid order, on the
    stored text of the timestamp column. *)
Section OrderBy.
Context {A : Type} (key : A -> Time).

Fixpoint insert_desc (x : A) (l : list A) : list A :=
  match l with
  | [] => [x]
  | y :: l' =>
      if stored_leb (key y) (key x) then x :: y :: l' else y :: insert_desc x l'
  end.

Definition order_by_desc (l : list A) : list A :=
  fold_right insert_desc [] l.

Fixpoint insert_asc (x : A) (l : list A) : list A :=
  match l with
  | [] => [x]
  | y :: l' =>
      if stored_leb (key x) (key y) then x :: y :: l' else y :: insert_asc x l'
  end.

Definition order_by_asc (l : list A) : list A :=
  fold_right insert_asc [] l.
End OrderBy.

(** ** [LIKE]

    SQLite's built-in operator.  Both texts are read as C strings, character
    by character: reading stops at the first NUL byte, a byte below 0xC0 is a
    character by itself, and a byte from 0xC0 on starts a character that
    takes in every continuation byte (0x80 to 0xBF) after it
    ([sqlite3Utf8Read]). *)
Definition byte (c : ascii) : N := N_of_ascii c.

Definition is_cont (v : N) : bool := ((128 <=? v) && (v <=? 191))%N.

(** [sqlite3Utf8Trans1], the payload bits of a lead byte. *)
Definition utf8_lead (v : N) : N :=
  (if v <? 224 then N.land v 31
   else if v <? 240 then N.land v 15
   else if v <? 248 then N.land v 7
   else if v <? 252 then N.land v 3
   else if v <? 254 then N.land v 1
   else 0)%N.

(** One more continuation byte, in 32-bit arithmetic. *)
Definition utf8_push (c v : N) : N := ((c * 64 + N.land v 63) mod 4294967296)%N.

(** Values that are no character are replaced by U+FFFD. *)
Definition utf8_fix (c : N) : N :=
  (if (c <? 128) || (N.land c 4294965248 =? 55296) || (N.land c 4294967294 =? 65534)
   then 65533 else c)%N.

Definition utf8_flush (cur : option N) : list N :=
  match cur with
  | Some c => [utf8_fix c]
  | None => []
  end.

(** The characters of a text; [cur] is the multi-byte character being
    read. *)
Fixpoint sql_decode (cur : option N) (s : list ascii) : list N :=
  match s with
  | [] => utf8_flush cur
  | b :: s' =>
      let v := byte b in
      if (v =? 0)%N then utf8_flush cur
      else
        match cur with
        | Some c =>
            if is_cont v then sql_decode (Some (utf8_push c v)) s'
            else utf8_flush cur ++
                 (if (192 <=? v)%N then sql_decode (Some (utf8_lead v)) s'
                  else v :: sql_decode None s')
        | None =>
            if (192 <=? v)%N then sql_decode (Some (utf8_lead v)) s'
            else v :: sql_decode None s'
        end
  end.

Definition sql_chars (s : string) : list N := sql_decode None (list_ascii_of_string s).

(** [%] stands for any run of characters, [_] for any one character, and
    any other pattern character for itself, an ASCII letter also for its
    other case. *)
Definition lower (c : N) : N :=
  (if (65 <=? c) && (c <=? 90) then c + 32 else c)%N.

Definition eq_nocase (a b : N) : bool :=
  ((a =? b) || ((a <? 128) && (b <? 128) && (lower a =? lower b)))%N.

Fixpoint any_suffix (f : list N -> bool) (s : list N) : bool :=
  f s || match s with [] => false | _ :: s' => any_suffix f s' end.

Definition is_percent (c : N) : bool := (c =? 37)%N.
Definition is_underscore (c : N) : bool := (c =? 95)%N.

Fixpoint like (p s : list N) {struct p} : bool :=
  match p with
  | [] => match s with [] => true | _ :: _ => false end
  | c :: p' =>
      if is_percent c then any_suffix (like p') s
      else
        match s with
        | [] => false
        | d :: s' => (eq_nocase c d || is_underscore c) && like p' s'
        end
  end.

Definition LIKE (text pattern : string) : bool :=
  like (sql_chars pattern) (sql_chars text).

(** [SQLITE_MAX_LIKE_PATTERN_LENGTH]: the function refuses a pattern of more
    than 50000 bytes. *)
Definition too_complex (pattern : string) : bool :=
  50000 <? Z.of_nat (String.length pattern).

Definition LIKE_checked (text pattern : string) : result bool :=
  if too_complex pattern then Err (ErrStore "LIKE or GLOB pattern too complex")
  else Ok (LIKE text pattern).

(** ** The statements the handlers run

    Each function gives what the store does when it runs the statement on
    the state it is in.  A statement can also fail for a reason outside that
    state (an I/O error, a database locked by another connection); such a
    failure is a step of the runs with overlapping requests ([conc_fail]),
    not a result of these functions. *)

(** [SELECT ... FROM notes ORDER BY <col> DESC]. *)
Definition query_notes (s : DB) (col : Note -> Time) : result (list Note) :=
  Ok (order_by_desc col (notes s)).

(** [SELECT ... FROM notes WHERE id = ?], the first row or [sql.ErrNoRows]. *)
Definition query_note (s : DB) (id : PathID) : result Note :=
  match find (note_has_id (sql_int id)) (notes s) with
  | Some n => Ok n
  | None => Err ErrNoRows
  end.

(** [INSERT INTO notes(title, content, created_at, last_modified)]: the new
    rowid is one more than the largest ever used; once the largest possible
    rowid has been used the insert is refused. *)
Definition insert_note (s : DB) (title content : string) (created modified : Time)
  : result (Z * DB) :=
  if maxInt <=? notes_seq s then Err (ErrStore "database or disk is full")
  else
    let id := notes_seq s + 1 in
    Ok (id, mkDB (foreign_keys s)
                 (notes s ++ [mkNote id title content created modified]) id
                 (lines s) (lines_seq s)).

(** [UPDATE notes SET title = ?, content = ?, last_modified = ? WHERE id = ?]. *)
Definition set_note (title content : string) (modified : Time) (n : Note) : Note :=
  mkNote (ID n) title content (CreatedAt n) modified.

Definition update_where {A} (c : A -> bool) (f : A -> A) (l : list A) : list A :=
  map (fun x => if c x then f x else x) l.

Definition update_note (s : DB) (title content : string) (modified : Time) (id : PathID)
  : result DB :=
  Ok (mkDB (foreign_keys s)
           (update_where (note_has_id (sql_int id)) (set_note title content modified) (notes s))
           (notes_seq s) (lines s) (lines_seq s)).

(** [UPDATE notes SET last_modified = ? WHERE id = ?]. *)
Definition set_last_modified (modified : Time) (n : Note) : Note :=
  mkNote (ID n) (Title n) (Content n) (CreatedAt n) modified.

Definition touch_note (s : DB) (modified : Time) (id : PathID) : result DB :=
  Ok (mkDB (foreign_keys s)
           (update_where (note_has_id (sql_int id)) (set_last_modified modified) (notes s))
           (notes_seq s) (lines s) (lines_seq s)).

(** [DELETE FROM notes WHERE id = ?].  The [ON DELETE CASCADE] of the
    [lines] table removes the lines of a deleted note, but only on a
    connection that enforces foreign keys. *)
Definition delete_note (s : DB) (id : PathID) : result DB :=
  let v := sql_int id in
  let deleted := existsb (note_has_id v) (notes s) in
  Ok (mkDB (foreign_keys s)
           (filter (fun n => negb (note_has_id v n)) (notes s))
           (notes_seq s)
           (if foreign_keys s && deleted
            then filter (fun l => negb (line_of_note v l)) (lines s)
            else lines s)
           (lines_seq s)).

(** [SELECT ... FROM lines WHERE note_id = ? ORDER BY timestamp ASC]. *)
Definition query_lines (s : DB) (id : PathID) : result (list Line) :=
  Ok (order_by_asc Timestamp (filter (line_of_note (sql_int id)) (lines s))).

(** [INSERT INTO lines(note_id, content, timestamp)]: the [FOREIGN KEY]
    clause rejects a line without a parent note, again only on a connection
    that enforces foreign keys. *)
Definition insert_line (s : DB) (note_id : Z) (content : string) (ts : Time)
  : result (Z * DB) :=
  if maxInt <=? lines_seq s then Err (ErrStore "database or disk is full")
  else if foreign_keys s && negb (existsb (note_has_id note_id) (notes s))
  then Err (ErrStore "FOREIGN KEY constraint failed")
  else
    let id := lines_seq s + 1 in
    Ok (id, mkDB (foreign_keys s) (notes s) (notes_seq s)
                 (lines s ++ [mkLine id note_id content ts]) id).

(** [SELECT ... FROM notes WHERE title LIKE ? OR content LIKE ?
    ORDER BY last_modified DESC]. *)
Definition search_match (p1 p2 : string) (n : Note) : result bool :=
  match LIKE_checked (Title n) p1 with
  | Err e => Err e
  | Ok true => Ok true
  | Ok false => LIKE_checked (Content n) p2
  end.

Fixpoint scan_where (c : Note -> result bool) (l : list Note) : result (list Note) :=
  match l with
  | [] => Ok []
  | n :: l' =>
      match c n with
      | Err e => Err e
      | Ok b =>
          match scan_where c l' with
          | Err e => Err e
          | Ok hits => Ok (if b then n :: hits else hits)
          end
      end
  end.

(** What a [*sql.Rows] hands to the loop over [rows.Next()], and the error
    [rows.Err()] would report afterwards. *)
Record Rows := mkRows {
  delivered : list Note;
  rows_Err : option error
}.

(** The statement is prepared and bound without error; it is run by
    [rows.Next()].  All rows are scanned before the sort delivers the first
    one, so a failure of [LIKE] ends the iteration before any row is
    delivered. *)
Definition query_search (s : DB) (p1 p2 : string) : result Rows :=
  match scan_where (search_match p1 p2) (notes s) with
  | Ok hits => Ok (mkRows (order_by_desc LastModified hits) None)
  | Err e => Ok (mkRows [] (Some e))
  end.

(* ================================================================== *)
(** * The server *)

(** [Initialize] on a fresh database file: [sql.Open("sqlite3", dbPath)] with
    the bare file path of [DB_PATH] (no [_foreign_keys] parameter, and no
    [PRAGMA foreign_keys] is ever executed), then the two
    [CREATE TABLE IF NOT EXISTS].  SQLite leaves foreign-key enforcement off
    on such a connection. *)
Definition Initialize : DB := mkDB false [] 0 [] 0.

(** Field assignments on the decoded structs. *)
Definition with_ID (n : Note) (v : Z) : Note :=
  mkNote v (Title n) (Content n) (CreatedAt n) (LastModified n).
Definition with_Title (n : Note) (v : string) : Note :=
  mkNote (ID n) v (Content n) (CreatedAt n) (LastModified n).
Definition with_CreatedAt (n : Note) (v : Time) : Note :=
  mkNote (ID n) (Title n) (Content n) v (LastModified n).
Definition with_LastModified (n : Note) (v : Time) : Note :=
  mkNote (ID n) (Title n) (Content n) (CreatedAt n) v.

Definition with_LineID (l : Line) (v : Z) : Line :=
  mkLine v (NoteID l) (LineContent l) (Timestamp l).
Definition with_NoteID (l : Line) (v : Z) : Line :=
  mkLine (LineID l) v (LineContent l) (Timestamp l).
Definition with_Timestamp (l : Line) (v : Time) : Line :=
  mkLine (LineID l) (NoteID l) (LineContent l) v.

(** ** Handlers

    Each handler takes the store and the parts of the request it reads, and
    returns the response it writes with the store it leaves.  [now] is the
    reading of [time.Now()] for the handlers that take one. *)

(** The [/api/health] closure. *)
Definition health (s : DB) : Response * DB :=
  (respondWithJSON http.StatusOK (JMap [("status", "healthy")]%string), s).

(** [sort] is [r.URL.Query().Get("sort")], empty when the parameter is
    missing. *)
Definition getAllNotes (s : DB) (sort : string) : Response * DB :=
  let sortBy := if String.eqb sort "" then "last_modified"%string else sort in
  let sortQuery := if String.eqb sortBy "creation_date" then CreatedAt else LastModified in
  match query_notes s sortQuery with
  | Err err => (respondWithError http.StatusInternalServerError (Error err), s)
  | Ok rows => (respondWithJSON http.StatusOK (JNotes rows), s)
  end.

Definition getNote (s : DB) (id : PathID) : Response * DB :=
  match query_note s id with
  | Err ErrNoRows => (respondWithError http.StatusNotFound "Note not found", s)
  | Err err => (respondWithError http.StatusInternalServerError (Error err), s)
  | Ok note => (respondWithJSON http.StatusOK (JNote note), s)
  end.

Definition createNote (s : DB) (now : Time) (body : Body NoteFields) : Response * DB :=
  match decodeNote body with
  | Err _ => (respondWithError http.StatusBadRequest "Invalid request payload", s)
  | Ok note =>
      let note := with_CreatedAt note now in
      let note := with_LastModified note now in
      let note := if String.eqb (Title note) "" then with_Title note "Untitled Diary" else note in
      match insert_note s (Title note) (Content note) (CreatedAt note) (LastModified note) with
      | Err err => (respondWithError http.StatusInternalServerError (Error err), s)
      | Ok (id, s') =>
          let note := with_ID note id in
          (respondWithJSON http.StatusCreated (JNote note), s')
      end
  end.

Definition updateNote (s : DB) (now : Time) (id : PathID) (body : Body NoteFields)
  : Response * DB :=
  match decodeNote body with
  | Err _ => (respondWithError http.StatusBadRequest "Invalid request payload", s)
  | Ok note =>
      let note := with_LastModified note now in
      match update_note s (Title note) (Content note) (LastModified note) id with
      | Err err => (respondWithError http.StatusInternalServerError (Error err), s)
      | Ok s' =>
          let note := with_ID note (parseInt id) in
          (respondWithJSON http.StatusOK (JNote note), s')
      end
  end.

Definition deleteNote (s : DB) (id : PathID) : Response * DB :=
  match delete_note s id with
  | Err err => (respondWithError http.StatusInternalServerError (Error err), s)
  | Ok s' =>
      (respondWithJSON http.StatusOK
         (JMap [("message", "Note deleted successfully")]%string), s')
  end.

Definition getLines (s : DB) (noteID : PathID) : Response * DB :=
  match query_lines s noteID with
  | Err err => (respondWithError http.StatusInternalServerError (Error err), s)
  | Ok rows => (respondWithJSON http.StatusOK (JLines rows), s)
  end.

Definition addLine (s : DB) (now : Time) (noteID : PathID) (body : Body LineFields)
  : Response * DB :=
  match decodeLine body with
  | Err _ => (respondWithError http.StatusBadRequest "Invalid request payload", s)
  | Ok line =>
      let line := with_Timestamp line now in
      let line := with_NoteID line (parseInt noteID) in
      match insert_line s (NoteID line) (LineContent line) (Timestamp line) with
      | Err err => (respondWithError http.StatusInternalServerError (Error err), s)
      | Ok (id, s1) =>
          let line := with_LineID line id in
          match touch_note s1 (Timestamp line) noteID with
          | Err err => (respondWithError http.StatusInternalServerError (Error err), s1)
          | Ok s2 => (respondWithJSON http.StatusCreated (JLine line), s2)
          end
      end
  end.

(** [q] is [r.URL.Query().Get("q")], empty when the parameter is missing.
    The loop appends what [rows.Next()] delivers; [rows.Err()] is not
    looked at. *)
Definition searchNotes (s : DB) (q : string) : Response * DB :=
  if String.eqb q "" then
    (respondWithError http.StatusBadRequest "Search query is required", s)
  else
    let pattern := ("%" ++ q ++ "%")%string in
    match query_search s pattern pattern with
    | Err err => (respondWithError http.StatusInternalServerError (Error err), s)
    | Ok rows => (respondWithJSON http.StatusOK (JNotes (delivered rows)), s)
    end.

(** ** Routes ([setupRoutes]) and runs of the server *)
Inductive Request :=
| GET_health
| GET_notes (sort : string)
| POST_notes (body : Body NoteFields)
| GET_note (id : PathID)
| PUT_note (id : PathID) (body : Body NoteFields)
| DELETE_note (id : PathID)
| GET_lines (id : PathID)
| POST_lines (id : PathID) (body : Body LineFields)
| GET_search (q : string).

Definition serve (s : DB) (now : Time) (r : Request) : Response * DB :=
  match r with
  | GET_health => health s
  | GET_notes sort => getAllNotes s sort
  | POST_notes body => createNote s now body
  | GET_note id => getNote s id
  | PUT_note id body => updateNote s now id body
  | DELETE_note id => deleteNote s id
  | GET_lines id => getLines s id
  | POST_lines id body => addLine s now id body
  | GET_search q => searchNotes s q
  end.

(** Serial runs of the server: requests served one at a time from a starting
    store, each handler running to its end before the next request is
    taken, each with its clock reading, the clock never going backwards.
    [run s0 s t]: starting from [s0] the store can be [s], the clock having
    last been read at or before [t].  ([net/http] also serves requests that
    overlap; those runs are [concurrent] below.) *)
Inductive run (s0 : DB) : DB -> Time -> Prop :=
| run_init : forall t, run s0 s0 t
| run_serve : forall s t now r,
    run s0 s t -> instant t <= instant now -> run s0 (snd (serve s now r)) now.

(** The states of the server as [main] starts it. *)
Definition reachable : DB -> Time -> Prop := run Initialize.

(** The same server on a connection that does enforce foreign keys, for
    comparison. *)
Definition Initialize_enforcing : DB := mkDB true [] 0 [] 0.
Definition reachable_enforcing : DB -> Time -> Prop := run Initialize_enforcing.

(** ** Predicates of the specification *)

(** Rowids are handed out in increasing order, once each, up to the table's
    counter, which stays within the rowid range. *)
Fixpoint ascending (lo : Z) (ids : list Z) : bool :=
  match ids with
  | [] => true
  | i :: ids' => (lo <? i) && ascending i ids'
  end.

Definition table_ok (ids : list Z) (seq : Z) : bool :=
  ascending 0 ids && forallb (fun i => i <=? seq) ids && (0 <=? seq) && (seq <=? maxInt).

Definition store_ok (s : DB) : bool :=
  table_ok (map ID (notes s)) (notes_seq s) &&
  table_ok (map LineID (lines s)) (lines_seq s).

(** Every line references an existing note. *)
Definition has_parent (s : DB) (l : Line) : bool :=
  existsb (note_has_id (NoteID l)) (notes s).

Definition refs_ok (s : DB) : bool := forallb (has_parent s) (lines s).

(** [last_modified >= created_at], and no timestamp is ahead of the clock. *)
Definition times_ok (s : DB) (t : Time) : Prop :=
  forall n, In n (notes s) ->
    instant (CreatedAt n) <= instant (LastModified n) /\
    instant (LastModified n) <= instant t.

(** Descending and ascending order of the instants of a timestamp column. *)
Definition desc_by {A} (key : A -> Time) (a b : A) : Prop :=
  instant (key b) <= instant (key a).
Definition asc_by {A} (key : A -> Time) (a b : A) : Prop :=
  instant (key a) <= instant (key b).

(** Descending and ascending order of its stored texts. *)
Definition stored_desc_by {A} (key : A -> Time) (a b : A) : Prop :=
  stored_leb (key b) (key a) = true.
Definition stored_asc_by {A} (key : A -> Time) (a b : A) : Prop :=
  stored_leb (key a) (key b) = true.

(** All the timestamps of a column carry the same UTC offset. *)
Definition same_offset {A} (key : A -> Time) (l : list A) : Prop :=
  forall a b, In a l -> In b l -> offset (key a) = offset (key b).

(** [t] occurs in [s] as a substring, byte for byte. *)
Definition substring (t s : string) : Prop :=
  exists a b, s = (a ++ t ++ b)%string.

(** The characters of [t] occur in a row among the characters of [s], up to
    the case of ASCII letters; both texts as SQLite reads them. *)
Fixpoint prefix_nocase (t s : list N) : bool :=
  match t, s with
  | [], _ => true
  | _ :: _, [] => false
  | c :: t', d :: s' => eq_nocase c d && prefix_nocase t' s'
  end.

Definition contains_nocase (t s : string) : bool :=
  any_suffix (prefix_nocase (sql_chars t)) (sql_chars s).

(** The term has none of [LIKE]'s wildcards. *)
Definition no_wildcard (t : string) : bool :=
  forallb (fun c => negb (is_percent c) && negb (is_underscore c)) (sql_chars t).

(** The text has no NUL byte. *)
Definition no_nul (t : string) : bool :=
  forallb (fun b => negb (byte b =? 0)%N) (list_ascii_of_string t).

(** The text is made of ASCII bytes other than NUL. *)
Definition ascii_text (t : string) : bool :=
  forallb (fun b => negb (byte b =? 0)%N && (byte b <? 128)%N) (list_ascii_of_string t).

(** ** Sample requests and stores

    The scenario of the specification: a note [{title:"X",content:"Y"}]
    created at instant 10, a line ["hi"] appended to it at instant 20, on a
    server whose local time is UTC. *)
Definition path_1 : PathID := (D1, []).
Definition path_5 : PathID := (D5, []).

Definition fields_XY : NoteFields :=
  mkNoteFields None (Some "X"%string) (Some "Y"%string) None None.
Definition fields_hi : LineFields :=
  mkLineFields None None (Some "hi"%string) None.

Definition store_XY : DB := snd (serve Initialize 10 (POST_notes (Members fields_XY))).
Definition store_XY_hi : DB := snd (serve store_XY 20 (POST_lines path_1 (Members fields_hi))).
Definition note_XY : Note := mkNote 1 "X" "Y" 10 10.

(** A [PUT] body that also carries [created_at] and [id] members. *)
Definition fields_with_created_at : NoteFields :=
  mkNoteFields (Some 9) (Some "T"%string) None (Some (utc 5)) None.

(** A note titled in upper case, for a lower-case search. *)
Definition fields_upper : NoteFields :=
  mkNoteFields None (Some "A"%string) (Some "B"%string) None None.
Definition store_upper : DB := snd (serve Initialize 10 (POST_notes (Members fields_upper))).

(** A line posted under an id that no note has, and the note of the scenario
    deleted after its line was appended. *)
Definition store_dangling : DB :=
  snd (serve Initialize 20 (POST_lines path_5 (Members fields_hi))).
Definition store_XY_deleted : DB := snd (serve store_XY_hi 30 (DELETE_note path_1)).

(** ** Further predicates and samples *)

(** The routes registered with [Methods("GET")]. *)
Definition is_GET (r : Request) : bool :=
  match r with
  | GET_health | GET_notes _ | GET_note _ | GET_lines _ | GET_search _ => true
  | POST_notes _ | PUT_note _ _ | DELETE_note _ | POST_lines _ _ => false
  end.

(** The path [/api/notes/99999999999999999999], beyond the range of [int],
    and the path [/api/notes/01]. *)
Definition path_big : PathID :=
  (D9, [D9; D9; D9; D9; D9; D9; D9; D9; D9; D9; D9; D9; D9; D9; D9; D9; D9; D9; D9]).
Definition path_01 : PathID := (D0, [D1]).

(** The term is made of [%] only. *)
Definition all_percent (q : string) : bool :=
  forallb (fun b => (byte b =? 37)%N) (list_ascii_of_string q).

(** A search term of 49999 bytes. *)
Definition long_term : string :=
  string_of_list_ascii (repeat "a"%char (Z.to_nat 49999)).

(** A [POST] body that tries to set the server-assigned members. *)
Definition fields_XY_forged : NoteFields :=
  mkNoteFields (Some 77) (Some "X"%string) (Some "Y"%string) (Some (utc 1)) (Some (utc 2)).
Definition fields_hi_forged : LineFields :=
  mkLineFields (Some 77) (Some 78) (Some "hi"%string) (Some (utc 3)).

(** Two notes created thirty minutes apart across the end of daylight
    saving time, on a server whose local zone goes from UTC+2 to UTC+1 in
    between: the first at 02:45 local time, the second at 02:15 local
    time. *)
Definition before_change : Time := mkTime (45 * minute) 120.
Definition after_change : Time := mkTime (75 * minute) 60.

Definition fields_first : NoteFields :=
  mkNoteFields None (Some "first"%string) None None None.
Definition fields_second : NoteFields :=
  mkNoteFields None (Some "second"%string) None None None.

Definition note_first : Note := mkNote 1 "first" "" before_change before_change.
Definition note_second : Note := mkNote 2 "second" "" after_change after_change.

Definition store_change : DB :=
  snd (serve (snd (serve Initialize before_change (POST_notes (Members fields_first))))
             after_change (POST_notes (Members fields_second))).

(** ** Overlapping requests

    [net/http] runs every handler in a goroutine of its own.  A handler that
    writes first decodes its body and reads the clock, and only then runs
    its statement or statements; in between, and between the two statements
    of [addLine], statements of other handlers can run.  A [task] is such a
    handler, stopped before its next statement. *)
Inductive task :=
| insert_note_task (note : Note)
| update_note_task (id : PathID) (note : Note)
| insert_line_task (noteID : PathID) (line : Line)
| touch_note_task (noteID : PathID) (line : Line).

(** A writing handler up to its first statement: [createNote] lines 181 to
    197, [updateNote] lines 218 to 230, [addLine] lines 286 to 299.  [None]
    for a body the decoder rejects and for the other routes. *)
Definition accept (now : Time) (r : Request) : option task :=
  match r with
  | POST_notes body =>
      match decodeNote body with
      | Err _ => None
      | Ok note =>
          let note := with_CreatedAt note now in
          let note := with_LastModified note now in
          let note :=
            if String.eqb (Title note) "" then with_Title note "Untitled Diary" else note in
          Some (insert_note_task note)
      end
  | PUT_note id body =>
      match decodeNote body with
      | Err _ => None
      | Ok note => Some (update_note_task id (with_LastModified note now))
      end
  | POST_lines noteID body =>
      match decodeLine body with
      | Err _ => None
      | Ok line =>
          let line := with_Timestamp line now in
          let line := with_NoteID line (parseInt noteID) in
          Some (insert_line_task noteID line)
      end
  | _ => None
  end.

(** The next statement of a stopped handler: the store it leaves and, for
    [addLine] after its insert, the handler stopped before its second
    statement.  A statement the store refuses ends the handler. *)
Definition resume (s : DB) (k : task) : DB * option task :=
  match k with
  | insert_note_task note =>
      match insert_note s (Title note) (Content note) (CreatedAt note) (LastModified note) with
      | Ok (_, s') => (s', None)
      | Err _ => (s, None)
      end
  | update_note_task id note =>
      match update_note s (Title note) (Content note) (LastModified note) id with
      | Ok s' => (s', None)
      | Err _ => (s, None)
      end
  | insert_line_task noteID line =>
      match insert_line s (NoteID line) (LineContent line) (Timestamp line) with
      | Ok (id, s1) => (s1, Some (touch_note_task noteID (with_LineID line id)))
      | Err _ => (s, None)
      end
  | touch_note_task noteID line =>
      match touch_note s (Timestamp line) noteID with
      | Ok s2 => (s2, None)
      | Err _ => (s, None)
      end
  end.

Definition next_tasks (k : option task) : list task :=
  match k with
  | Some k' => [k']
  | None => []
  end.

(** [concurrent s ks t]: the server started by [Initialize] can be in store
    state [s] with the handlers [ks] stopped before their next statement,
    the clock having last been read at or before [t].  A request is taken
    and the clock read, which for a writing handler leaves it stopped before
    its first statement ([conc_accept]); a stopped handler runs its next
    statement ([conc_resume]), or that statement fails for a reason outside
    the store's state (an I/O error, a locked database) and the handler
    ends with a 500 ([conc_fail]); [deleteNote] reads no clock and runs one
    statement ([conc_delete]). *)
Inductive concurrent : DB -> list task -> Time -> Prop :=
| conc_init : forall t, concurrent Initialize [] t
| conc_accept : forall s ks t now r,
    concurrent s ks t -> instant t <= instant now ->
    concurrent s (next_tasks (accept now r) ++ ks) now
| conc_resume : forall s ks1 k ks2 t,
    concurrent s (ks1 ++ k :: ks2) t ->
    concurrent (fst (resume s k)) (ks1 ++ next_tasks (snd (resume s k)) ++ ks2) t
| conc_fail : forall s ks1 k ks2 t,
    concurrent s (ks1 ++ k :: ks2) t -> concurrent s (ks1 ++ ks2) t
| conc_delete : forall s ks t id,
    concurrent s ks t -> concurrent (snd (deleteNote s id)) ks t.

(** An update of note 1 that read the clock at 10 and ran its statement only
    after a create that read the clock at 20 had inserted note 1. *)
Definition store_raced : DB :=
  fst (resume (fst (resume Initialize
                      (insert_note_task (mkNote 0 "X" "Y" 20 20))))
              (update_note_task path_1 (mkNote 0 "T" "" zeroTime 10))).

(* ================================================================== *)
(** * Properties of the store statements *)

Lemma zone_leb_total (a b : Z) : zone_leb a b = false -> zone_leb b a = true.
Proof.
  unfold zone_leb. destruct (0 <=? a) eqn:Ea, (0 <=? b) eqn:Eb;
    try discriminate; try reflexivity; intros H;
    apply Z.leb_gt in H; apply Z.leb_le; lia.
Qed.

Lemma zone_leb_trans (a b c : Z) :
  zone_leb a b = true -> zone_leb b c = true -> zone_leb a c = true.
Proof.
  unfold zone_leb. destruct (0 <=? a) eqn:Ea, (0 <=? b) eqn:Eb, (0 <=? c) eqn:Ec;
    try discriminate; try reflexivity; intros H1 H2;
    apply Z.leb_le in H1, H2; apply Z.leb_le; lia.
Qed.

Lemma zone_leb_refl (a : Z) : zone_leb a a = true.
Proof. unfold zone_leb. destruct (0 <=? a); apply Z.leb_refl. Qed.

Lemma stored_leb_spec (a b : Time) :
  stored_leb a b = true <->
  wall a < wall b \/ (wall a = wall b /\ zone_leb (offset a) (offset b) = true).
Proof.
  unfold stored_leb. rewrite orb_true_iff, andb_true_iff, Z.ltb_lt, Z.eqb_eq.
  reflexivity.
Qed.

Lemma stored_leb_total (a b : Time) : stored_leb a b = false -> stored_leb b a = true.
Proof.
  intros H. apply stored_leb_spec.
  unfold stored_leb in H. apply orb_false_iff in H as [H1 H2].
  apply Z.ltb_ge in H1. destruct (Z.eq_dec (wall a) (wall b)) as [E|E].
  - right. split; [symmetry; exact E|]. apply Z.eqb_eq in E. rewrite E in H2.
    simpl in H2. apply zone_leb_total, H2.
  - left. lia.
Qed.

Lemma stored_leb_trans (a b c : Time) :
  stored_leb a b = true -> stored_leb b c = true -> stored_leb a c = true.
Proof.
  rewrite !stored_leb_spec. intros [H1|[H1 Z1]] [H2|[H2 Z2]].
  - left. lia.
  - left. lia.
  - left. lia.
  - right. split; [lia|]. apply (zone_leb_trans _ _ _ Z1 Z2).
Qed.

(** Between two timestamps with the same offset the stored texts are in the
    order of the instants. *)
Lemma stored_leb_same_offset (a b : Time) :
  offset a = offset b -> (stored_leb a b = true <-> instant a <= instant b).
Proof.
  intros E. rewrite stored_leb_spec. unfold wall. rewrite E. split.
  - intros [H|[H _]]; lia.
  - intros H. destruct (Z.eq_dec (instant a) (instant b)) as [Ei|Ei].
    + right. split; [lia | apply zone_leb_refl].
    + left. lia.
Qed.

Lemma StronglySorted_weaken {A} (R R' : A -> A -> Prop) (l : list A) :
  (forall a b, In a l -> In b l -> R a b -> R' a b) ->
  StronglySorted R l -> StronglySorted R' l.
Proof.
  intros H Hs. induction Hs as [|x l Hs IH Hall]; constructor.
  - apply IH. intros a b Ha Hb. apply H; right; assumption.
  - rewrite Forall_forall in *. intros y Hy.
    apply H; [left; reflexivity | right; exact Hy | apply Hall, Hy].
Qed.

Section OrderByFacts.
Context {A : Type} (key : A -> Time).

Lemma insert_desc_perm (x : A) (l : list A) :
  Permutation (insert_desc key x l) (x :: l).
Proof.
  induction l as [|y l IH]; simpl.
  - apply Permutation_refl.
  - destruct (stored_leb (key y) (key x)).
    + apply Permutation_refl.
    + eapply perm_trans; [apply perm_skip, IH | apply perm_swap].
Qed.

Lemma order_by_desc_perm (l : list A) : Permutation (order_by_desc key l) l.
Proof.
  induction l as [|x l IH]; simpl.
  - constructor.
  - eapply perm_trans; [apply insert_desc_perm | apply perm_skip, IH].
Qed.

Lemma insert_desc_hd (x a : A) (l : list A) :
  stored_desc_by key a x -> HdRel (stored_desc_by key) a l ->
  HdRel (stored_desc_by key) a (insert_desc key x l).
Proof.
  intros Hxa Hl. destruct l as [|y l]; simpl.
  - constructor. exact Hxa.
  - destruct (stored_leb (key y) (key x)); constructor.
    + exact Hxa.
    + inversion Hl; assumption.
Qed.

Lemma insert_desc_sorted (x : A) (l : list A) :
  Sorted (stored_desc_by key) l -> Sorted (stored_desc_by key) (insert_desc key x l).
Proof.
  induction 1 as [|y l Hs IH Hhd]; simpl.
  - repeat constructor.
  - destruct (stored_leb (key y) (key x)) eqn:E.
    + constructor; [constructor; assumption|].
      constructor. exact E.
    + constructor; [exact IH|].
      apply insert_desc_hd; [|exact Hhd].
      apply stored_leb_total, E.
Qed.

Lemma order_by_desc_sorted (l : list A) :
  Sorted (stored_desc_by key) (order_by_desc key l).
Proof.
  induction l as [|x l IH]; simpl.
  - constructor.
  - apply insert_desc_sorted, IH.
Qed.

Lemma order_by_desc_strongly (l : list A) :
  StronglySorted (stored_desc_by key) (order_by_desc key l).
Proof.
  apply Sorted_StronglySorted; [|apply order_by_desc_sorted].
  intros a b c Hab Hbc. unfold stored_desc_by in *.
  apply (stored_leb_trans _ _ _ Hbc Hab).
Qed.

(** When the timestamps of the rows carry one offset, the rows come in the
    order of the instants. *)
Lemma order_by_desc_instants (l : list A) :
  same_offset key l -> StronglySorted (desc_by key) (order_by_desc key l).
Proof.
  intros Hsame.
  apply (StronglySorted_weaken (stored_desc_by key)); [|apply order_by_desc_strongly].
  intros a b Ha Hb H.
  apply (Permutation_in _ (order_by_desc_perm l)) in Ha, Hb.
  unfold desc_by. apply stored_leb_same_offset; [apply Hsame; assumption | exact H].
Qed.

Lemma insert_asc_perm (x : A) (l : list A) :
  Permutation (insert_asc key x l) (x :: l).
Proof.
  induction l as [|y l IH]; simpl.
  - apply Permutation_refl.
  - destruct (stored_leb (key x) (key y)).
    + apply Permutation_refl.
    + eapply perm_trans; [apply perm_skip, IH | apply perm_swap].
Qed.

Lemma order_by_asc_perm (l : list A) : Permutation (order_by_asc key l) l.
Proof.
  induction l as [|x l IH]; simpl.
  - constructor.
  - eapply perm_trans; [apply insert_asc_perm | apply perm_skip, IH].
Qed.

Lemma insert_asc_hd (x a : A) (l : list A) :
  stored_asc_by key a x -> HdRel (stored_asc_by key) a l ->
  HdRel (stored_asc_by key) a (insert_asc key x l).
Proof.
  intros Hax Hl. destruct l as [|y l]; simpl.
  - constructor. exact Hax.
  - destruct (stored_leb (key x) (key y)); constructor.
    + exact Hax.
    + inversion Hl; assumption.
Qed.

Lemma insert_asc_sorted (x : A) (l : list A) :
  Sorted (stored_asc_by key) l -> Sorted (stored_asc_by key) (insert_asc key x l).
Proof.
  induction 1 as [|y l Hs IH Hhd]; simpl.
  - repeat constructor.
  - destruct (stored_leb (key x) (key y)) eqn:E.
    + constructor; [constructor; assumption|].
      constructor. exact E.
    + constructor; [exact IH|].
      apply insert_asc_hd; [|exact Hhd].
      apply stored_leb_total, E.
Qed.

Lemma order_by_asc_strongly (l : list A) :
  StronglySorted (stored_asc_by key) (order_by_asc key l).
Proof.
  apply Sorted_StronglySorted.
  - intros a b c Hab Hbc. unfold stored_asc_by in *.
    apply (stored_leb_trans _ _ _ Hab Hbc).
  - induction l as [|x l IH]; simpl; [constructor | apply insert_asc_sorted, IH].
Qed.

Lemma order_by_asc_instants (l : list A) :
  same_offset key l -> StronglySorted (asc_by key) (order_by_asc key l).
Proof.
  intros Hsame.
  apply (StronglySorted_weaken (stored_asc_by key)); [|apply order_by_asc_strongly].
  intros a b Ha Hb H.
  apply (Permutation_in _ (order_by_asc_perm l)) in Ha, Hb.
  unfold asc_by. apply stored_leb_same_offset; [apply Hsame; assumption | exact H].
Qed.
End OrderByFacts.

(** ** Updates and deletes on rows *)

Lemma update_where_none {A} (c : A -> bool) (f : A -> A) (l : list A) :
  existsb c l = false -> update_where c f l = l.
Proof.
  induction l as [|x l IH]; simpl; [reflexivity|].
  intros H. apply orb_false_iff in H as [Hx Hl].
  rewrite Hx, (IH Hl). reflexivity.
Qed.

Lemma update_where_ids (v : Z) (f : Note -> Note) (l : list Note) :
  (forall n, ID (f n) = ID n) ->
  map ID (update_where (note_has_id v) f l) = map ID l.
Proof.
  intros Hf. unfold update_where. rewrite map_map.
  apply map_ext. intros n. destruct (note_has_id v n); [apply Hf | reflexivity].
Qed.

Lemma update_where_in {A} (c : A -> bool) (f : A -> A) (l : list A) (y : A) :
  In y (update_where c f l) ->
  exists x, In x l /\ y = (if c x then f x else x).
Proof.
  unfold update_where. intros H. apply in_map_iff in H as [x [Hx Hin]].
  exists x. split; [exact Hin | symmetry; exact Hx].
Qed.

Lemma update_where_hit {A} (c : A -> bool) (f : A -> A) (l : list A) (x : A) :
  In x l -> c x = true -> In (f x) (update_where c f l).
Proof.
  intros Hin Hc. unfold update_where. apply in_map_iff.
  exists x. rewrite Hc. split; [reflexivity | exact Hin].
Qed.

Lemma existsb_note_has_id (v : Z) (l : list Note) :
  existsb (note_has_id v) l = true <-> exists n, In n l /\ ID n = v.
Proof.
  rewrite existsb_exists. unfold note_has_id.
  split; intros [n [Hin Hn]]; exists n; split; try assumption.
  - apply Z.eqb_eq, Hn.
  - apply Z.eqb_eq, Hn.
Qed.

Lemma existsb_ids (v : Z) (l l' : list Note) :
  map ID l = map ID l' ->
  existsb (note_has_id v) l = existsb (note_has_id v) l'.
Proof.
  revert l'. induction l as [|n l IH]; intros [|n' l'] H; simpl in *;
    try discriminate; [reflexivity|].
  injection H as Hn Hl. unfold note_has_id at 1 3. rewrite Hn, (IH _ Hl). reflexivity.
Qed.

(** ** Rowids *)

Lemma ascending_weaken (lo lo' : Z) (ids : list Z) :
  lo' <= lo -> ascending lo ids = true -> ascending lo' ids = true.
Proof.
  destruct ids as [|i ids]; simpl; [reflexivity|].
  intros Hlo H. apply andb_true_iff in H as [Hi Hr].
  apply andb_true_iff. split; [|exact Hr].
  apply Z.ltb_lt in Hi. apply Z.ltb_lt. lia.
Qed.

Lemma ascending_lower_bound (lo : Z) (ids : list Z) :
  ascending lo ids = true -> forall i, In i ids -> lo < i.
Proof.
  revert lo. induction ids as [|j ids IH]; simpl; intros lo H i Hin; [contradiction|].
  apply andb_true_iff in H as [Hj Hr]. apply Z.ltb_lt in Hj.
  destruct Hin as [<-|Hin]; [exact Hj|].
  specialize (IH _ Hr _ Hin). lia.
Qed.

Lemma ascending_filter {A} (g : A -> Z) (f : A -> bool) (lo : Z) (l : list A) :
  ascending lo (map g l) = true -> ascending lo (map g (filter f l)) = true.
Proof.
  revert lo. induction l as [|x l IH]; simpl; intros lo H; [reflexivity|].
  apply andb_true_iff in H as [Hx Hr].
  destruct (f x); simpl.
  - rewrite Hx. simpl. apply IH, Hr.
  - apply IH. apply ascending_weaken with (lo := g x); [|exact Hr].
    apply Z.ltb_lt in Hx. lia.
Qed.

Lemma ascending_snoc (lo seq x : Z) (ids : list Z) :
  ascending lo ids = true ->
  forallb (fun i => i <=? seq) ids = true ->
  lo < x -> seq < x ->
  ascending lo (ids ++ [x]) = true.
Proof.
  revert lo. induction ids as [|i ids IH]; simpl; intros lo Ha Hb Hlo Hseq.
  - apply andb_true_iff. split; [apply Z.ltb_lt; exact Hlo | reflexivity].
  - apply andb_true_iff in Ha as [Hi Hr]. apply andb_true_iff in Hb as [Hi' Hb].
    rewrite Hi. simpl. apply IH; try assumption.
    apply Z.leb_le in Hi'. lia.
Qed.

Lemma table_ok_spec (ids : list Z) (seq : Z) :
  table_ok ids seq = true ->
  seq <= maxInt /\ forall i, In i ids -> 0 < i <= seq.
Proof.
  unfold table_ok. intros H.
  apply andb_true_iff in H as [H Hmax]. apply andb_true_iff in H as [H Hpos].
  apply andb_true_iff in H as [Hasc Hall].
  apply Z.leb_le in Hmax. split; [exact Hmax|].
  intros i Hin. split.
  - apply (ascending_lower_bound _ _ Hasc _ Hin).
  - rewrite forallb_forall in Hall. apply Z.leb_le, Hall, Hin.
Qed.

Lemma table_ok_insert (ids : list Z) (seq : Z) :
  table_ok ids seq = true -> seq < maxInt ->
  table_ok (ids ++ [seq + 1]) (seq + 1) = true.
Proof.
  unfold table_ok. intros H Hroom.
  apply andb_true_iff in H as [H Hmax]. apply andb_true_iff in H as [H Hpos].
  apply andb_true_iff in H as [Hasc Hall].
  apply Z.leb_le in Hpos.
  repeat (apply andb_true_iff; split).
  - apply ascending_snoc with (seq := seq); try assumption; lia.
  - rewrite forallb_app. apply andb_true_iff. split.
    + rewrite forallb_forall in *. intros i Hi. specialize (Hall _ Hi).
      apply Z.leb_le in Hall. apply Z.leb_le. lia.
    + simpl. rewrite Z.leb_refl. reflexivity.
  - apply Z.leb_le. lia.
  - apply Z.leb_le. lia.
Qed.

Lemma table_ok_filter {A} (g : A -> Z) (f : A -> bool) (l : list A) (seq : Z) :
  table_ok (map g l) seq = true -> table_ok (map g (filter f l)) seq = true.
Proof.
  unfold table_ok. intros H.
  apply andb_true_iff in H as [H Hmax]. apply andb_true_iff in H as [H Hpos].
  apply andb_true_iff in H as [Hasc Hall].
  rewrite Hmax, Hpos, (ascending_filter g f 0 l Hasc). simpl.
  rewrite !andb_true_r.
  rewrite forallb_forall in *. intros i Hi. apply Hall.
  apply in_map_iff in Hi as [x [Hx Hin]]. apply filter_In in Hin as [Hin _].
  apply in_map_iff. exists x. split; assumption.
Qed.

(** A note that is in the store has an id that [parseInt] reads back. *)
Lemma parseInt_of_stored (s : DB) (n : Note) (p : PathID) :
  store_ok s = true -> In n (notes s) -> ID n = pathValue p ->
  parseInt p = pathValue p.
Proof.
  intros Hok Hin Hid. unfold store_ok in Hok.
  apply andb_true_iff in Hok as [Hn _].
  apply table_ok_spec in Hn as [Hmax Hids].
  assert (Hr : 0 < ID n <= notes_seq s) by (apply Hids, in_map, Hin).
  unfold parseInt. rewrite <- Hid.
  destruct (ID n <=? maxInt) eqn:E; [reflexivity|].
  apply Z.leb_gt in E. lia.
Qed.

Lemma parseInt_in_range (p : PathID) :
  pathValue p <= maxInt -> parseInt p = pathValue p.
Proof.
  intros H. unfold parseInt. apply Z.leb_le in H. rewrite H. reflexivity.
Qed.

(** ** A search leaves the store alone *)

Lemma searchNotes_store (s : DB) (q : string) : snd (searchNotes s q) = s.
Proof.
  unfold searchNotes, query_search. destruct (String.eqb q ""); [reflexivity|].
  destruct (scan_where _ _); reflexivity.
Qed.

(** ** Every handler keeps the rowid discipline *)

Lemma store_ok_serve (s : DB) (now : Time) (r : Request) :
  store_ok s = true -> store_ok (snd (serve s now r)) = true.
Proof.
  intros Hok. pose proof Hok as Hok'. unfold store_ok in Hok'.
  apply andb_true_iff in Hok' as [Hn Hl].
  destruct r as [|sort|body|id|id body|id|id|id body|q]; simpl.
  - exact Hok.
  - exact Hok.
  - unfold createNote. destruct (decodeNote body) as [note|e]; [|exact Hok].
    unfold insert_note. cbv zeta.
    destruct (maxInt <=? notes_seq s) eqn:E; [exact Hok|].
    simpl. unfold store_ok. simpl. rewrite Hl, andb_true_r.
    rewrite map_app. simpl. apply table_ok_insert; [exact Hn|].
    apply Z.leb_gt in E. exact E.
  - unfold getNote. destruct (query_note s id) as [n|[| |m]]; exact Hok.
  - unfold updateNote. destruct (decodeNote body) as [note|e]; [|exact Hok].
    simpl. unfold store_ok. simpl.
    rewrite update_where_ids by reflexivity. exact Hok.
  - unfold store_ok. simpl. apply andb_true_iff. split.
    + apply table_ok_filter, Hn.
    + destruct (foreign_keys s && existsb (note_has_id (sql_int id)) (notes s));
        [apply table_ok_filter, Hl | exact Hl].
  - exact Hok.
  - unfold addLine. destruct (decodeLine body) as [line|e]; [|exact Hok].
    unfold insert_line. cbv zeta.
    destruct (maxInt <=? lines_seq s) eqn:E; [exact Hok|].
    match goal with |- context [if ?c then Err _ else _] => destruct c end;
      [exact Hok|].
    simpl. unfold store_ok. simpl.
    rewrite update_where_ids by reflexivity. rewrite Hn. simpl.
    rewrite map_app. simpl. apply table_ok_insert; [exact Hl|].
    apply Z.leb_gt in E. exact E.
  - rewrite searchNotes_store. exact Hok.
Qed.

Lemma run_store_ok (s0 s : DB) (t : Time) :
  store_ok s0 = true -> run s0 s t -> store_ok s = true.
Proof.
  intros H0. induction 1 as [t|s t now r Hrun IH Hle]; [exact H0|].
  apply store_ok_serve, IH.
Qed.

Lemma reachable_store_ok (s : DB) (t : Time) : reachable s t -> store_ok s = true.
Proof. apply run_store_ok. reflexivity. Qed.

(* ================================================================== *)
(** * The handlers *)

Lemma stored_note_unique (s : DB) (n m : Note) :
  store_ok s = true -> In n (notes s) -> In m (notes s) -> ID n = ID m -> n = m.
Proof.
  intros Hok. unfold store_ok, table_ok in Hok.
  repeat (apply andb_true_iff in Hok as [Hok _]).
  revert Hok. generalize 0. induction (notes s) as [|x l IH]; simpl; intros lo Hasc Hn Hm Hid;
    [contradiction|].
  apply andb_true_iff in Hasc as [Hx Hr].
  pose proof (ascending_lower_bound _ _ Hr) as Hlb.
  destruct Hn as [<-|Hn], Hm as [<-|Hm].
  - reflexivity.
  - specialize (Hlb _ (in_map ID _ _ Hm)). lia.
  - specialize (Hlb _ (in_map ID _ _ Hn)). lia.
  - apply (IH _ Hr Hn Hm Hid).
Qed.

Lemma find_note_has_id (v : Z) (l : list Note) :
  match find (note_has_id v) l with
  | Some n => In n l /\ ID n = v
  | None => forall n, In n l -> ID n <> v
  end.
Proof.
  destruct (find (note_has_id v) l) as [n|] eqn:E.
  - apply find_some in E as [Hin Hn]. split; [exact Hin | apply Z.eqb_eq, Hn].
  - intros n Hin Hn. pose proof (find_none _ _ E _ Hin) as H.
    unfold note_has_id in H. apply Z.eqb_neq in H. contradiction.
Qed.



(** C2.  Creating a note from a well-formed body (on a [notes] table that is
    not full) answers 201 with a note whose id is the rowid the store
    assigned, whose created_at and last_modified are both the clock reading
    of the request, and whose title is the body's title when that is not
    empty and "Untitled Diary" otherwise; that note is the row added to the
    store. *)
Theorem createNote_returns_created_note (s : DB) (now : Time) (f : NoteFields) :
  notes_seq s < maxInt ->
  let title := or_zero ""%string (j_title f) in
  let r := fst (createNote s now (Members f)) in
  let s' := snd (createNote s now (Members f)) in
  exists note,
    code r = 201 /\
    payload r = JNote note /\
    ID note = notes_seq s + 1 /\
    notes_seq s' = ID note /\
    CreatedAt note = now /\
    LastModified note = now /\
    CreatedAt note = LastModified note /\
    Content note = or_zero ""%string (j_content f) /\
    Title note <> ""%string /\
    (title <> ""%string -> Title note = title) /\
    (title = ""%string -> Title note = "Untitled Diary"%string) /\
    notes s' = notes s ++ [note] /\
    lines s' = lines s.
Proof.
  intros Hroom title r s'.
  set (note := mkNote (notes_seq s + 1)
                      (if String.eqb title "" then "Untitled Diary"%string else title)
                      (or_zero ""%string (j_content f)) now now).
  assert (Hrun : createNote s now (Members f) =
                 (mkResponse 201 (JNote note),
                  mkDB (foreign_keys s) (notes s ++ [note]) (notes_seq s + 1)
                       (lines s) (lines_seq s))).
  { unfold createNote, insert_note. simpl. fold title.
    destruct (maxInt <=? notes_seq s) eqn:E; [apply Z.leb_le in E; lia|].
    subst note. destruct (String.eqb title "") eqn:Et; reflexivity. }
  exists note. subst r s'. rewrite Hrun. simpl.
  repeat (split; [reflexivity|]).
  split; [|split; [|split; [|split]]]; try reflexivity.
  - destruct (String.eqb title "") eqn:Et; [discriminate|].
    apply String.eqb_neq in Et. exact Et.
  - intros Hne. apply String.eqb_neq in Hne. rewrite Hne. reflexivity.
  - intros ->. reflexivity.
Qed.

Lemma createNote_returns_created_note_witness :
  notes_seq Initialize < maxInt /\
  exists note,
    payload (fst (createNote Initialize 10 (Members fields_XY))) = JNote note /\
    ID note = 1 /\ Title note = "X"%string /\ CreatedAt note = LastModified note.
Proof.
  assert (H : notes_seq Initialize < maxInt) by reflexivity.
  split; [exact H|].
  destruct (createNote_returns_created_note Initialize 10 fields_XY H)
    as [note (_ & Hp & Hid & _ & _ & _ & Heq & _ & _ & Ht & _)].
  exists note. split; [exact Hp|]. split; [exact Hid|]. split; [|exact Heq].
  apply Ht. discriminate.
Defined.

(** C5.  Updating a note from a well-formed body answers 200 and runs one
    UPDATE: every stored note with the path's id gets the body's title and
    content (the empty string for a member the body leaves out) and the clock
    reading as last_modified, keeping its id and created_at; nothing else in
    the store changes, and when no note has that id the store is left exactly
    as it was. *)
Theorem updateNote_overwrites (s : DB) (now : Time) (id : PathID) (f : NoteFields) :
  let title := or_zero ""%string (j_title f) in
  let content := or_zero ""%string (j_content f) in
  let s' := snd (updateNote s now id (Members f)) in
  code (fst (updateNote s now id (Members f))) = 200 /\
  notes s' = update_where (note_has_id (pathValue id)) (set_note title content now) (notes s) /\
  (lines s' = lines s /\ notes_seq s' = notes_seq s /\ lines_seq s' = lines_seq s) /\
  (forall n, In n (notes s) -> ID n = pathValue id ->
     In (mkNote (ID n) title content (CreatedAt n) now) (notes s')) /\
  (forall m, In m (notes s') -> ID m = pathValue id ->
     Title m = title /\ Content m = content /\ LastModified m = now) /\
  (forall m, In m (notes s') -> ID m <> pathValue id -> In m (notes s)) /\
  (j_title f = None -> title = ""%string) /\
  (j_content f = None -> content = ""%string) /\
  ((forall n, In n (notes s) -> ID n <> pathValue id) -> s' = s).
Proof.
  intros title content s'. subst s'. unfold updateNote, update_note, sql_int. simpl.
  fold title. fold content.
  split; [reflexivity|]. split; [reflexivity|]. split; [repeat split|].
  split; [|split; [|split; [|split; [|split]]]].
  - intros n Hin Hid.
    apply (update_where_hit _ (set_note title content now) _ n Hin).
    apply Z.eqb_eq, Hid.
  - intros m Hm Hid. apply update_where_in in Hm as [x [Hx ->]].
    destruct (note_has_id (pathValue id) x) eqn:E; [repeat split|].
    unfold note_has_id in E. apply Z.eqb_neq in E. contradiction.
  - intros m Hm Hid. apply update_where_in in Hm as [x [Hx ->]].
    destruct (note_has_id (pathValue id) x) eqn:E; [|exact Hx].
    unfold note_has_id in E. apply Z.eqb_eq in E. simpl in Hid. contradiction.
  - subst title. intros ->. reflexivity.
  - subst content. intros ->. reflexivity.
  - intros Hnone. rewrite update_where_none.
    + destruct s; reflexivity.
    + destruct (existsb (note_has_id (pathValue id)) (notes s)) eqn:E; [|reflexivity].
      apply existsb_note_has_id in E as [n [Hin Hid]].
      exfalso. apply (Hnone n Hin Hid).
Qed.

Lemma updateNote_overwrites_witness :
  In (mkNote 1 "T" "" 10 30)
     (notes (snd (updateNote store_XY 30 path_1 (Members fields_with_created_at)))) /\
  snd (updateNote store_XY 30 path_5 (Members fields_with_created_at)) = store_XY.
Proof.
  pose proof (updateNote_overwrites store_XY 30 path_1 fields_with_created_at) as H1.
  pose proof (updateNote_overwrites store_XY 30 path_5 fields_with_created_at) as H5.
  cbv zeta in H1, H5.
  destruct H1 as (_ & _ & _ & Hhit & _).
  destruct H5 as (_ & _ & _ & _ & _ & _ & _ & _ & Hmiss).
  split.
  - apply (Hhit note_XY); [left; reflexivity | reflexivity].
  - apply Hmiss. intros n [<-|[]]. discriminate.
Defined.

(** C6.  Reading a note leaves the store unchanged; it answers 404 exactly
    when no stored note has the path's id, and otherwise 200 with a stored
    note of that id, which on a store whose rowids are in order is the only
    one. *)
Theorem getNote_found_or_404 (s : DB) (id : PathID) :
  let r := fst (getNote s id) in
  snd (getNote s id) = s /\
  (code r = 404 <-> ~ exists n, In n (notes s) /\ ID n = pathValue id) /\
  ((exists n, In n (notes s) /\ ID n = pathValue id /\
              code r = 200 /\ payload r = JNote n) \/
   ((forall n, In n (notes s) -> ID n <> pathValue id) /\
    code r = 404 /\ payload r = JMap [("error", "Note not found")]%string)) /\
  (store_ok s = true ->
   forall n, In n (notes s) -> ID n = pathValue id ->
   code r = 200 /\ payload r = JNote n).
Proof.
  intros r. subst r. unfold getNote, query_note, sql_int.
  pose proof (find_note_has_id (pathValue id) (notes s)) as Hfind.
  destruct (find (note_has_id (pathValue id)) (notes s)) as [n|]; simpl.
  - destruct Hfind as [Hin Hid].
    split; [reflexivity|]. split; [|split].
    + split; [discriminate|]. intros Hno. exfalso. apply Hno. exists n. split; assumption.
    + left. exists n. repeat split; assumption.
    + intros Hok m Hm Hmid.
      rewrite (stored_note_unique s n m Hok Hin Hm); [split; reflexivity | congruence].
  - split; [reflexivity|]. split; [|split].
    + split; [|reflexivity]. intros _ [n [Hin Hid]]. apply (Hfind n Hin Hid).
    + right. split; [exact Hfind | split; reflexivity].
    + intros _ n Hin Hid. exfalso. apply (Hfind n Hin Hid).
Qed.

Lemma getNote_found_or_404_witness :
  store_ok store_XY = true /\
  payload (fst (getNote store_XY path_1)) = JNote note_XY /\
  code (fst (getNote store_XY path_5)) = 404.
Proof.
  assert (Hok : store_ok store_XY = true) by reflexivity.
  split; [exact Hok|]. split.
  - apply (proj2 (proj2 (proj2 (getNote_found_or_404 store_XY path_1))) Hok).
    + left. reflexivity.
    + reflexivity.
  - apply (proj1 (proj2 (getNote_found_or_404 store_XY path_5))).
    intros [n [[<-|[]] Hid]]. discriminate.
Defined.

(** C8, evaluated across a change of the server's UTC offset.  Two notes are
    created one after the other, the second thirty minutes after the first
    but, the clocks having been set back an hour in between, at an earlier
    local time.  The store orders the stored local-time texts, so both
    listings put the older note first: they are not in descending order of
    created_at or of last_modified. *)
Theorem getAllNotes_order_across_offset_change :
  reachable store_change after_change /\
  notes store_change = [note_first; note_second] /\
  instant (CreatedAt note_first) < instant (CreatedAt note_second) /\
  instant (LastModified note_first) < instant (LastModified note_second) /\
  code (fst (getAllNotes store_change "creation_date")) = 200 /\
  payload (fst (getAllNotes store_change "creation_date")) =
    JNotes [note_first; note_second] /\
  payload (fst (getAllNotes store_change "")) = JNotes [note_first; note_second] /\
  ~ StronglySorted (desc_by CreatedAt) [note_first; note_second] /\
  ~ StronglySorted (desc_by LastModified) [note_first; note_second].
Proof.
  split.
  { unfold reachable, store_change.
    apply run_serve with (t := before_change); [|discriminate].
    apply run_serve with (t := 0); [apply run_init | discriminate]. }
  split; [reflexivity|]. split; [reflexivity|]. split; [reflexivity|].
  split; [reflexivity|]. split; [reflexivity|]. split; [reflexivity|].
  split; intros H; inversion H as [|x l _ Hall]; subst;
    inversion Hall as [|y l' Hd _]; subst; unfold desc_by in Hd; simpl in Hd;
    vm_compute in Hd; apply Hd; reflexivity.
Qed.

(** C9.  A body the JSON decoder rejects makes each of the three
    body-carrying handlers answer 400 with the message "Invalid request
    payload" and leave the store as it was; and 400 is the answer only for
    such a body. *)
Theorem invalid_body_rejected (s : DB) (now : Time) (id : PathID) :
  createNote s now Invalid =
    (respondWithError http.StatusBadRequest "Invalid request payload", s) /\
  updateNote s now id Invalid =
    (respondWithError http.StatusBadRequest "Invalid request payload", s) /\
  addLine s now id Invalid =
    (respondWithError http.StatusBadRequest "Invalid request payload", s) /\
  (forall b, code (fst (createNote s now b)) = 400 <-> b = Invalid) /\
  (forall b, code (fst (updateNote s now id b)) = 400 <-> b = Invalid) /\
  (forall b, code (fst (addLine s now id b)) = 400 <-> b = Invalid).
Proof.
  repeat split; try reflexivity; try (intros ->; reflexivity).
  - destruct b as [|f]; [reflexivity|]. unfold createNote, insert_note. simpl.
    destruct (maxInt <=? notes_seq s); discriminate.
  - destruct b as [|f]; [reflexivity|]. discriminate.
  - destruct b as [|f]; [reflexivity|]. unfold addLine, insert_line. simpl.
    destruct (maxInt <=? lines_seq s); [discriminate|].
    match goal with |- context [if ?c then Err _ else _] => destruct c end; discriminate.
Qed.

(** C10 (amended).  The note in UpdateNote's 200 response is built from the
    decoded body and not read back from the store: title and content are the
    body's (empty when left out), last_modified is the clock reading, id is
    the integer [parseInt] reads from the path (overriding any id in the
    body), and created_at is whatever the body carries, the zero timestamp
    only when the body has no created_at member; the response is the same
    whatever the store holds. *)
Theorem updateNote_response_from_body
  (s s2 : DB) (now : Time) (id : PathID) (f : NoteFields) :
  fst (updateNote s now id (Members f)) =
    respondWithJSON http.StatusOK
      (JNote (mkNote (parseInt id)
                     (or_zero ""%string (j_title f))
                     (or_zero ""%string (j_content f))
                     (or_zero zeroTime (j_created_at f))
                     now)) /\
  fst (updateNote s2 now id (Members f)) = fst (updateNote s now id (Members f)) /\
  (j_created_at f = None ->
   exists n, fst (updateNote s now id (Members f)) = respondWithJSON 200 (JNote n) /\
             CreatedAt n = zeroTime) /\
  (pathValue id <= maxInt -> parseInt id = pathValue id).
Proof.
  split; [reflexivity|]. split; [reflexivity|]. split.
  - intros Hnone. eexists. split; [reflexivity|]. simpl. rewrite Hnone. reflexivity.
  - apply parseInt_in_range.
Qed.

Lemma updateNote_response_from_body_witness :
  pathValue path_1 <= maxInt /\ parseInt path_1 = pathValue path_1 /\
  exists n, fst (updateNote store_XY 30 path_1 (Members fields_XY)) =
              respondWithJSON 200 (JNote n) /\ CreatedAt n = zeroTime.
Proof.
  assert (H : pathValue path_1 <= maxInt) by (vm_compute; discriminate).
  pose proof (updateNote_response_from_body store_XY Initialize 30 path_1 fields_XY)
    as (_ & _ & Hzero & Hid).
  split; [exact H|]. split; [exact (Hid H)|].
  apply Hzero. reflexivity.
Defined.

(** C10 as stated fails: a body with a created_at member gets that value
    back, not the zero timestamp (and not the stored created_at either). *)
Lemma updateNote_created_at_not_zero :
  In note_XY (notes store_XY) /\
  exists n,
    fst (updateNote store_XY 30 path_1 (Members fields_with_created_at)) =
      respondWithJSON http.StatusOK (JNote n) /\
    CreatedAt n = 5 /\ CreatedAt n <> zeroTime /\ CreatedAt n <> CreatedAt note_XY.
Proof.
  split; [left; reflexivity|].
  eexists. split; [reflexivity|]. simpl. repeat split; discriminate.
Qed.

(* ================================================================== *)
(** * Invariants of the reachable states *)

(** ** Timestamps *)

Lemma times_ok_later (s : DB) (t now : Time) :
  times_ok s t -> instant t <= instant now -> times_ok s now.
Proof. intros H Hle n Hin. destruct (H n Hin). lia. Qed.

Lemma times_ok_serve (s : DB) (t now : Time) (r : Request) :
  times_ok s t -> instant t <= instant now -> times_ok (snd (serve s now r)) now.
Proof.
  intros H Hle. pose proof (times_ok_later s t now H Hle) as Hnow.
  destruct r as [|sort|body|id|id body|id|id|id body|q]; simpl.
  - exact Hnow.
  - exact Hnow.
  - unfold createNote. destruct (decodeNote body) as [note|e]; [|exact Hnow].
    unfold insert_note. cbv zeta.
    destruct (maxInt <=? notes_seq s); [exact Hnow|].
    intros n Hin. simpl in Hin. apply in_app_iff in Hin as [Hin|[<-|[]]].
    + apply (Hnow n Hin).
    + destruct (String.eqb _ _); simpl; lia.
  - unfold getNote. destruct (query_note s id) as [n|[| |m]]; exact Hnow.
  - unfold updateNote. destruct (decodeNote body) as [note|e]; [|exact Hnow].
    intros n Hin. simpl in Hin. apply update_where_in in Hin as [x [Hx ->]].
    destruct (H x Hx). destruct (note_has_id _ x); simpl; lia.
  - intros n Hin. simpl in Hin. apply filter_In in Hin as [Hin _].
    apply (Hnow n Hin).
  - exact Hnow.
  - unfold addLine. destruct (decodeLine body) as [line|e]; [|exact Hnow].
    unfold insert_line. cbv zeta.
    destruct (maxInt <=? lines_seq s); [exact Hnow|].
    match goal with |- context [if ?c then Err _ else _] => destruct c end;
      [exact Hnow|].
    intros n Hin. simpl in Hin. apply update_where_in in Hin as [x [Hx ->]].
    destruct (H x Hx). destruct (note_has_id _ x); simpl; lia.
  - rewrite searchNotes_store. exact Hnow.
Qed.

Lemma run_times_ok (s0 s : DB) (t : Time) :
  notes s0 = [] -> run s0 s t -> times_ok s t.
Proof.
  intros H0. induction 1 as [t|s t now r Hrun IH Hle].
  - intros n Hin. rewrite H0 in Hin. contradiction.
  - apply (times_ok_serve s t now r IH Hle).
Qed.

(** ** Serial runs among the overlapping ones *)

Lemma serve_by_tasks (s : DB) (now : Time) (r : Request) :
  snd (serve s now r) =
    match accept now r with
    | Some k =>
        match snd (resume s k) with
        | Some k' => fst (resume (fst (resume s k)) k')
        | None => fst (resume s k)
        end
    | None =>
        match r with
        | DELETE_note id => snd (deleteNote s id)
        | _ => s
        end
    end.
Proof.
  destruct r as [|sort|body|id|id body|id|id|id body|q]; simpl; try reflexivity.
  - unfold createNote. destruct (decodeNote body) as [note|e]; [|reflexivity].
    simpl. destruct (insert_note s _ _ _ _) as [[i s']|e]; reflexivity.
  - unfold getNote. destruct (query_note s id) as [n|[| |m]]; reflexivity.
  - unfold updateNote. destruct (decodeNote body) as [note|e]; reflexivity.
  - unfold addLine. destruct (decodeLine body) as [line|e]; [|reflexivity].
    simpl. destruct (insert_line s _ _ _) as [[i s1]|e]; reflexivity.
  - apply searchNotes_store.
Qed.

Lemma resume_twice (s : DB) (k k' : task) :
  snd (resume s k) = Some k' -> snd (resume (fst (resume s k)) k') = None.
Proof.
  destruct k as [note|id note|noteID line|noteID line]; simpl.
  - destruct (insert_note s _ _ _ _) as [[i s']|e]; discriminate.
  - discriminate.
  - destruct (insert_line s _ _ _) as [[i s1]|e]; [|discriminate].
    simpl. intros H. injection H as <-. reflexivity.
  - discriminate.
Qed.

(** Every serial run is one of the overlapping runs: each handler is taken
    and resumed to its end before the next request. *)
Lemma reachable_concurrent (s : DB) (t : Time) :
  reachable s t -> concurrent s [] t.
Proof.
  induction 1 as [t|s t now r Hrun IH Hle].
  - apply conc_init.
  - rewrite serve_by_tasks.
    pose proof (conc_accept s [] t now r IH Hle) as H1. rewrite app_nil_r in H1.
    destruct (accept now r) as [k|] eqn:Ea; simpl in H1.
    + apply (conc_resume s [] k [] now) in H1. simpl in H1. rewrite app_nil_r in H1.
      destruct (snd (resume s k)) as [k'|] eqn:E1; simpl in H1; [|exact H1].
      apply (conc_resume _ [] k' [] now) in H1. simpl in H1.
      rewrite (resume_twice s k k' E1) in H1. exact H1.
    + destruct r; try exact H1. apply conc_delete. exact H1.
Qed.




(** ** References from lines to notes *)

Lemma refs_ok_spec (s : DB) :
  refs_ok s = true <->
  forall l, In l (lines s) -> exists n, In n (notes s) /\ ID n = NoteID l.
Proof.
  unfold refs_ok, has_parent. rewrite forallb_forall.
  split; intros H l Hl; apply existsb_note_has_id, H, Hl.
Qed.

(** On a connection that enforces foreign keys every handler keeps every
    line attached to a note. *)
Lemma refs_ok_serve_enforcing (s : DB) (now : Time) (r : Request) :
  foreign_keys s = true -> refs_ok s = true ->
  foreign_keys (snd (serve s now r)) = true /\ refs_ok (snd (serve s now r)) = true.
Proof.
  intros Hfk Hok. pose proof (proj1 (refs_ok_spec s) Hok) as Hrefs.
  assert (Hsame : forall s', foreign_keys s' = foreign_keys s ->
            map ID (notes s') = map ID (notes s) -> lines s' = lines s ->
            foreign_keys s' = true /\ refs_ok s' = true).
  { intros s' E1 E2 E3. split; [congruence|].
    unfold refs_ok, has_parent. rewrite E3.
    rewrite forallb_forall. intros l Hl. rewrite (existsb_ids _ _ _ E2).
    unfold refs_ok, has_parent in Hok. rewrite forallb_forall in Hok. apply Hok, Hl. }
  destruct r as [|sort|body|id|id body|id|id|id body|q]; simpl.
  - split; assumption.
  - split; assumption.
  - unfold createNote. destruct (decodeNote body) as [note|e]; [|split; assumption].
    unfold insert_note. cbv zeta.
    destruct (maxInt <=? notes_seq s); [split; assumption|].
    simpl. split; [exact Hfk|]. apply refs_ok_spec. simpl. intros l Hl.
    destruct (Hrefs l Hl) as [n [Hn Hid]]. exists n. split; [|exact Hid].
    apply in_app_iff. left. exact Hn.
  - unfold getNote. destruct (query_note s id) as [n|[| |m]]; split; assumption.
  - unfold updateNote. destruct (decodeNote body) as [note|e]; [|split; assumption].
    apply Hsame; simpl; try reflexivity. apply update_where_ids. reflexivity.
  - rewrite Hfk. simpl. split; [reflexivity|]. apply refs_ok_spec. simpl.
    destruct (existsb (note_has_id (sql_int id)) (notes s)) eqn:E.
    + intros l Hl. apply filter_In in Hl as [Hl Hne].
      destruct (Hrefs l Hl) as [n [Hn Hid]]. exists n. split; [|exact Hid].
      apply filter_In. split; [exact Hn|].
      unfold note_has_id. unfold line_of_note in Hne. rewrite Hid. exact Hne.
    + intros l Hl. destruct (Hrefs l Hl) as [n [Hn Hid]].
      exists n. split; [|exact Hid]. apply filter_In. split; [exact Hn|].
      destruct (note_has_id (sql_int id) n) eqn:En; [|reflexivity].
      assert (existsb (note_has_id (sql_int id)) (notes s) = true) as Habs
        by (apply existsb_exists; exists n; split; assumption).
      congruence.
  - split; assumption.
  - unfold addLine. destruct (decodeLine body) as [line|e]; [|split; assumption].
    unfold insert_line. cbv zeta.
    destruct (maxInt <=? lines_seq s); [split; assumption|].
    rewrite Hfk. simpl.
    destruct (existsb (note_has_id (parseInt id)) (notes s)) eqn:E;
      simpl; [|split; assumption].
    split; [reflexivity|]. apply refs_ok_spec. simpl. intros l Hl.
    assert (Hold : exists n, In n (notes s) /\ ID n = NoteID l).
    { apply in_app_iff in Hl as [Hl|[<-|[]]]; [apply Hrefs, Hl|].
      simpl. apply existsb_note_has_id, E. }
    destruct Hold as [n [Hn Hid]].
    destruct (note_has_id (sql_int id) n) eqn:En.
    + exists (set_last_modified now n). split; [|exact Hid].
      apply update_where_hit; assumption.
    + exists n. split; [|exact Hid]. unfold update_where. apply in_map_iff.
      exists n. rewrite En. split; [reflexivity | exact Hn].
  - rewrite searchNotes_store. split; assumption.
Qed.

Lemma reachable_enforcing_refs_ok (s : DB) (t : Time) :
  reachable_enforcing s t -> foreign_keys s = true /\ refs_ok s = true.
Proof.
  induction 1 as [t|s t now r Hrun [IHfk IHok] Hle].
  - split; reflexivity.
  - apply refs_ok_serve_enforcing; assumption.
Qed.

Lemma filter_out_then_in {A} (c : A -> bool) (l : list A) :
  filter c (filter (fun x => negb (c x)) l) = [].
Proof.
  induction l as [|x l IH]; simpl; [reflexivity|].
  destruct (c x) eqn:E; simpl; [exact IH|]. rewrite E. exact IH.
Qed.

Lemma filter_nothing {A} (c : A -> bool) (l : list A) :
  (forall x, In x l -> c x = false) -> filter c l = [].
Proof.
  induction l as [|x l IH]; simpl; intros H; [reflexivity|].
  rewrite (H x (or_introl eq_refl)). apply IH. intros y Hy. apply H. right. exact Hy.
Qed.

(** On such a connection deleting a note leaves no line of it behind. *)
Lemma deleteNote_cascades_enforcing (s : DB) (id : PathID) :
  foreign_keys s = true -> refs_ok s = true ->
  fst (getLines (snd (deleteNote s id)) id) = respondWithJSON http.StatusOK (JLines []).
Proof.
  intros Hfk Hok. pose proof (proj1 (refs_ok_spec s) Hok) as Hrefs.
  unfold getLines, query_lines, deleteNote, delete_note. simpl. rewrite Hfk. simpl.
  assert (Hnone : filter (line_of_note (sql_int id))
            (if existsb (note_has_id (sql_int id)) (notes s)
             then filter (fun l => negb (line_of_note (sql_int id) l)) (lines s)
             else lines s) = []).
  { destruct (existsb (note_has_id (sql_int id)) (notes s)) eqn:E.
    - apply filter_out_then_in.
    - apply filter_nothing. intros l Hl. destruct (Hrefs l Hl) as [n [Hn Hid]].
      destruct (line_of_note (sql_int id) l) eqn:El; [|reflexivity].
      unfold line_of_note in El. apply Z.eqb_eq in El.
      assert (existsb (note_has_id (sql_int id)) (notes s) = true) as Habs
        by (apply existsb_note_has_id; exists n; split; [exact Hn | congruence]).
      congruence. }
  rewrite Hnone. reflexivity.
Qed.

(** C3, evaluated on the server as [Initialize] opens it.  A line posted
    under an id that no note has is stored with a 201, so a reachable state
    holds a line without a note; and after a note is deleted its line is
    still listed. *)
Theorem foreign_keys_not_enforced :
  (reachable store_dangling 20 /\
   fst (addLine Initialize 20 path_5 (Members fields_hi)) =
     respondWithJSON http.StatusCreated (JLine (mkLine 1 5 "hi" 20)) /\
   notes store_dangling = [] /\
   lines store_dangling = [mkLine 1 5 "hi" 20] /\
   refs_ok store_dangling = false) /\
  (reachable store_XY_deleted 30 /\
   fst (deleteNote store_XY_hi path_1) =
     respondWithJSON http.StatusOK (JMap [("message", "Note deleted successfully")]%string) /\
   notes store_XY_deleted = [] /\
   fst (getLines store_XY_deleted path_1) =
     respondWithJSON http.StatusOK (JLines [mkLine 1 1 "hi" 20]) /\
   refs_ok store_XY_deleted = false).
Proof.
  split.
  - split; [|repeat split].
    unfold reachable, store_dangling.
    apply run_serve with (t := 0); [apply run_init | discriminate].
  - split; [|repeat split].
    unfold reachable, store_XY_deleted, store_XY_hi, store_XY.
    apply run_serve with (t := 20); [|discriminate].
    apply run_serve with (t := 10); [|discriminate].
    apply run_serve with (t := 0); [apply run_init | discriminate].
Qed.

(* ================================================================== *)
(** * Search *)

Lemma list_ascii_of_string_app (a b : string) :
  list_ascii_of_string (a ++ b) = list_ascii_of_string a ++ list_ascii_of_string b.
Proof.
  induction a as [|c a IH]; simpl; [reflexivity|]. rewrite IH. reflexivity.
Qed.

Lemma string_length_app (a b : string) :
  String.length (a ++ b) = (String.length a + String.length b)%nat.
Proof.
  induction a as [|c a IH]; simpl; [reflexivity|]. rewrite IH. reflexivity.
Qed.

(** ** Reading texts *)

Lemma sql_decode_ascii_break (a : list ascii) (cur : option N) (b : ascii) (r : list ascii) :
  forallb (fun x => negb (byte x =? 0)%N) a = true ->
  (byte b =? 0)%N = false -> (byte b <? 128)%N = true ->
  sql_decode cur (a ++ b :: r) = sql_decode cur a ++ byte b :: sql_decode None r.
Proof.
  intros Ha Hb0 Hb.
  assert (Hcont : is_cont (byte b) = false).
  { unfold is_cont. apply N.ltb_lt in Hb.
    destruct (128 <=? byte b)%N eqn:E; [apply N.leb_le in E; lia | reflexivity]. }
  assert (Hlead : (192 <=? byte b)%N = false).
  { apply N.ltb_lt in Hb. apply N.leb_gt. lia. }
  revert cur. induction a as [|x a IH]; intros cur.
  - simpl. rewrite Hb0. destruct cur as [c|]; [rewrite Hcont|]; rewrite Hlead; reflexivity.
  - simpl in Ha. apply andb_true_iff in Ha as [Hx Ha]. apply negb_true_iff in Hx.
    specialize (IH Ha). simpl. rewrite Hx.
    destruct cur as [c|].
    + destruct (is_cont (byte x)); [apply IH|].
      destruct (192 <=? byte x)%N; rewrite IH; [apply app_assoc | reflexivity].
    + destruct (192 <=? byte x)%N; rewrite IH; reflexivity.
Qed.

Lemma sql_decode_ascii_run (t r : list ascii) :
  forallb (fun b => negb (byte b =? 0)%N && (byte b <? 128)%N) t = true ->
  sql_decode None (t ++ r) = map byte t ++ sql_decode None r.
Proof.
  induction t as [|x t IH]; intros Ht; [reflexivity|].
  simpl in Ht. apply andb_true_iff in Ht as [Hx Ht].
  apply andb_true_iff in Hx as [Hx0 Hx]. apply negb_true_iff in Hx0.
  change ((x :: t) ++ r) with ([] ++ x :: (t ++ r)).
  rewrite (sql_decode_ascii_break [] None x (t ++ r) eq_refl Hx0 Hx).
  simpl. rewrite (IH Ht). reflexivity.
Qed.

(** The pattern the handler builds reads as [%], the term, [%]. *)
Lemma sql_chars_pattern (q : string) :
  no_nul q = true ->
  sql_chars ("%" ++ q ++ "%") = 37%N :: sql_chars q ++ [37%N].
Proof.
  intros Hq. unfold sql_chars.
  change ("%" ++ q ++ "%")%string with (String "%" (q ++ "%")).
  cbn [list_ascii_of_string]. rewrite list_ascii_of_string_app.
  change (list_ascii_of_string "%") with ["%"%char].
  change (sql_decode None ("%"%char :: list_ascii_of_string q ++ ["%"%char]))
    with (37%N :: sql_decode None (list_ascii_of_string q ++ ["%"%char])).
  rewrite (sql_decode_ascii_break _ None "%"%char [] Hq eq_refl eq_refl).
  reflexivity.
Qed.

(** ** Matching *)

Lemma any_suffix_ext (f g : list N -> bool) (s : list N) :
  (forall r, f r = g r) -> any_suffix f s = any_suffix g s.
Proof.
  intros H. induction s as [|c s IH]; simpl; rewrite H; [reflexivity|].
  rewrite IH. reflexivity.
Qed.

Lemma any_suffix_spec (f : list N -> bool) (s : list N) :
  any_suffix f s = true <-> exists a r, s = a ++ r /\ f r = true.
Proof.
  induction s as [|c s IH]; simpl.
  - rewrite orb_false_r. split.
    + intros H. exists [], []. split; [reflexivity | exact H].
    + intros [a [r [E H]]]. symmetry in E. apply app_eq_nil in E as [_ ->]. exact H.
  - rewrite orb_true_iff, IH. split.
    + intros [H|[a [r [-> H]]]].
      * exists [], (c :: s). split; [reflexivity | exact H].
      * exists (c :: a), r. split; [reflexivity | exact H].
    + intros [[|d a] [r [E H]]]; simpl in E.
      * left. rewrite E. exact H.
      * right. injection E as _ ->. exists a, r. split; [reflexivity | exact H].
Qed.

Lemma any_suffix_true (f : list N -> bool) (s : list N) :
  (forall r, f r = true) -> any_suffix f s = true.
Proof. intros H. destruct s; simpl; rewrite H; reflexivity. Qed.

Lemma like_percent_end (s : list N) : like [37%N] s = true.
Proof.
  simpl. induction s as [|c s IH]; simpl; [reflexivity | exact IH].
Qed.

(** A pattern without wildcards, followed by [%], matches the texts that
    start with it up to ASCII case. *)
Lemma like_prefix (t s : list N) :
  forallb (fun c => negb (is_percent c) && negb (is_underscore c)) t = true ->
  like (t ++ [37%N]) s = prefix_nocase t s.
Proof.
  revert s. induction t as [|c t IH]; intros s Hw.
  - rewrite like_percent_end. reflexivity.
  - simpl in Hw. apply andb_true_iff in Hw as [Hc Ht].
    apply andb_true_iff in Hc as [Hp Hu].
    apply negb_true_iff in Hp, Hu.
    change ((c :: t) ++ [37%N]) with (c :: (t ++ [37%N])).
    simpl. rewrite Hp, Hu. destruct s as [|d s]; [reflexivity|].
    rewrite (IH s Ht), orb_false_r. reflexivity.
Qed.

Lemma LIKE_contains (text q : string) :
  no_nul q = true -> no_wildcard q = true ->
  LIKE text ("%" ++ q ++ "%") = contains_nocase q text.
Proof.
  intros Hn Hw. unfold LIKE, contains_nocase.
  rewrite (sql_chars_pattern q Hn).
  change (like (37%N :: sql_chars q ++ [37%N]) (sql_chars text))
    with (any_suffix (like (sql_chars q ++ [37%N])) (sql_chars text)).
  apply any_suffix_ext. intros r. apply like_prefix. exact Hw.
Qed.

Lemma prefix_nocase_self (t r : list N) : prefix_nocase t (t ++ r) = true.
Proof.
  induction t as [|c t IH]; simpl; [reflexivity|].
  rewrite IH. unfold eq_nocase. rewrite N.eqb_refl. reflexivity.
Qed.

(** For an ASCII term and a text without NUL, a literal occurrence is an
    occurrence as SQLite reads the two. *)
Lemma substring_contains_nocase (t s : string) :
  ascii_text t = true -> no_nul s = true ->
  substring t s -> contains_nocase t s = true.
Proof.
  intros Ht Hs [a [b ->]]. unfold contains_nocase, sql_chars.
  unfold no_nul in Hs. rewrite !list_ascii_of_string_app in *.
  rewrite forallb_app in Hs. apply andb_true_iff in Hs as [Ha _].
  unfold ascii_text in Ht.
  rewrite <- (app_nil_r (list_ascii_of_string t)) at 1.
  rewrite (sql_decode_ascii_run _ [] Ht). simpl. rewrite app_nil_r.
  apply any_suffix_spec.
  destruct (list_ascii_of_string t) as [|x t'] eqn:Et.
  - exists [], (sql_decode None (list_ascii_of_string a ++ [] ++ list_ascii_of_string b)).
    split; reflexivity.
  - exists (sql_decode None (list_ascii_of_string a)),
           (map byte (x :: t') ++ sql_decode None (list_ascii_of_string b)).
    split; [|apply prefix_nocase_self].
    pose proof Ht as Ht'. simpl in Ht'. apply andb_true_iff in Ht' as [Hx Ht'].
    apply andb_true_iff in Hx as [Hx0 Hx]. apply negb_true_iff in Hx0.
    change ((x :: t') ++ list_ascii_of_string b)
      with (x :: (t' ++ list_ascii_of_string b)).
    rewrite (sql_decode_ascii_break _ None x _ Ha Hx0 Hx).
    rewrite (sql_decode_ascii_run _ _ Ht'). reflexivity.
Qed.

(** ** Scanning the rows *)

Lemma pattern_fits (q : string) :
  Z.of_nat (String.length q) <= 49998 -> too_complex ("%" ++ q ++ "%") = false.
Proof.
  intros H. unfold too_complex. rewrite !string_length_app. simpl String.length.
  apply Z.ltb_ge. lia.
Qed.

Lemma scan_where_fits (p : string) (l : list Note) :
  too_complex p = false ->
  scan_where (search_match p p) l =
    Ok (filter (fun n => LIKE (Title n) p || LIKE (Content n) p) l).
Proof.
  intros Hp. induction l as [|n l IH]; simpl; [reflexivity|].
  rewrite IH. unfold search_match, LIKE_checked. rewrite Hp.
  destruct (LIKE (Title n) p); reflexivity.
Qed.

Lemma scan_where_hits (c : Note -> result bool) (l hits : list Note) :
  scan_where c l = Ok hits ->
  hits = filter (fun n => match c n with Ok true => true | _ => false end) l.
Proof.
  revert hits. induction l as [|n l IH]; simpl; intros hits H.
  - injection H as <-. reflexivity.
  - destruct (c n) as [b|e]; [|discriminate].
    destruct (scan_where c l) as [hits'|e]; [|discriminate].
    injection H as <-. rewrite (IH hits' eq_refl). destruct b; reflexivity.
Qed.

Lemma searchNotes_fits (s : DB) (q : string) :
  q <> ""%string -> too_complex ("%" ++ q ++ "%") = false ->
  searchNotes s q =
    (mkResponse 200
       (JNotes (order_by_desc LastModified
                  (filter (fun n => LIKE (Title n) ("%" ++ q ++ "%") ||
                                    LIKE (Content n) ("%" ++ q ++ "%")) (notes s)))),
     s).
Proof.
  intros Hq Hfit. apply String.eqb_neq in Hq.
  unfold searchNotes, query_search. rewrite Hq, (scan_where_fits _ _ Hfit). reflexivity.
Qed.

(** C4 (amended).  A search without a term answers 400 with an error, not a
    list.  A search for a non-empty term T of at most 49998 bytes, without
    NUL byte and without the wildcards [%] and [_], answers 200, leaves the
    store unchanged, and returns exactly the notes whose title or content
    contains T up to the case of ASCII letters, term and texts taken as
    SQLite reads them (character by character up to the first NUL byte); so
    for an ASCII term every note that contains T literally in a title or
    content without NUL byte is among them.  The notes come in descending
    order of the stored last_modified texts, which is the descending order of
    last_modified when all the notes carry the same UTC offset. *)
Theorem searchNotes_matches (s : DB) (q : string) :
  (code (fst (searchNotes s "")) = 400 /\
   payload (fst (searchNotes s "")) = JMap [("error", "Search query is required")]%string /\
   snd (searchNotes s "") = s) /\
  (q <> ""%string -> Z.of_nat (String.length q) <= 49998 ->
   no_nul q = true -> no_wildcard q = true ->
   exists rows,
     code (fst (searchNotes s q)) = 200 /\
     payload (fst (searchNotes s q)) = JNotes rows /\
     snd (searchNotes s q) = s /\
     Permutation rows
       (filter (fun n => contains_nocase q (Title n) || contains_nocase q (Content n))
               (notes s)) /\
     (forall n, In n rows <->
        In n (notes s) /\
        (contains_nocase q (Title n) = true \/ contains_nocase q (Content n) = true)) /\
     (ascii_text q = true ->
      forall n, In n (notes s) ->
        (no_nul (Title n) = true /\ substring q (Title n)) \/
        (no_nul (Content n) = true /\ substring q (Content n)) ->
        In n rows) /\
     StronglySorted (stored_desc_by LastModified) rows /\
     (same_offset LastModified (notes s) -> StronglySorted (desc_by LastModified) rows)).
Proof.
  split; [repeat split|]. intros Hq Hlen Hn Hw.
  set (hit := fun n => contains_nocase q (Title n) || contains_nocase q (Content n)).
  assert (Hrun : searchNotes s q =
                 (mkResponse 200 (JNotes (order_by_desc LastModified (filter hit (notes s)))),
                  s)).
  { rewrite (searchNotes_fits s q Hq (pattern_fits q Hlen)).
    rewrite (filter_ext _ hit); [reflexivity|].
    intros n. unfold hit. rewrite !LIKE_contains by assumption. reflexivity. }
  assert (Hin : forall n, In n (order_by_desc LastModified (filter hit (notes s))) <->
                  In n (notes s) /\
                  (contains_nocase q (Title n) = true \/ contains_nocase q (Content n) = true)).
  { intros n. split.
    - intros H. apply (Permutation_in _ (order_by_desc_perm LastModified _)) in H.
      apply filter_In in H as [H1 H2]. split; [exact H1|].
      apply orb_true_iff. exact H2.
    - intros [H1 H2].
      apply (Permutation_in _ (Permutation_sym (order_by_desc_perm LastModified _))).
      apply filter_In. split; [exact H1|]. apply orb_true_iff. exact H2. }
  exists (order_by_desc LastModified (filter hit (notes s))).
  rewrite Hrun. simpl.
  split; [reflexivity|]. split; [reflexivity|]. split; [reflexivity|].
  split; [apply order_by_desc_perm|]. split; [exact Hin|].
  split; [|split].
  - intros Ha n Hnote Hsub. apply Hin. split; [exact Hnote|].
    destruct Hsub as [[H0 H]|[H0 H]]; [left | right];
      apply substring_contains_nocase; assumption.
  - apply order_by_desc_strongly.
  - intros Hsame. apply order_by_desc_instants.
    intros a b Ha Hb. apply filter_In in Ha as [Ha _]. apply filter_In in Hb as [Hb _].
    apply Hsame; assumption.
Qed.

Lemma searchNotes_matches_witness :
  "x"%string <> ""%string /\ Z.of_nat (String.length "x") <= 49998 /\
  no_nul "x" = true /\ no_wildcard "x" = true /\
  exists rows,
    payload (fst (searchNotes store_XY "x")) = JNotes rows /\
    In note_XY rows.
Proof.
  assert (H1 : "x"%string <> ""%string) by discriminate.
  assert (H2 : Z.of_nat (String.length "x") <= 49998) by (vm_compute; discriminate).
  assert (H3 : no_nul "x" = true) by reflexivity.
  assert (H4 : no_wildcard "x" = true) by reflexivity.
  split; [exact H1|]. split; [exact H2|]. split; [exact H3|]. split; [exact H4|].
  destruct (proj2 (searchNotes_matches store_XY "x") H1 H2 H3 H4)
    as [rows (_ & Hrun & _ & _ & Hin & _)].
  exists rows. split; [exact Hrun|].
  apply Hin. split; [left; reflexivity | left; reflexivity].
Defined.

(** C4 as stated fails: [LIKE] ignores the case of ASCII letters, so a
    search for "a" returns a note that contains "a" neither in its title nor
    in its content. *)
Lemma searchNotes_ignores_case :
  notes store_upper = [mkNote 1 "A" "B" 10 10] /\
  payload (fst (searchNotes store_upper "a")) = JNotes [mkNote 1 "A" "B" 10 10] /\
  ~ substring "a" (Title (mkNote 1 "A" "B" 10 10)) /\
  ~ substring "a" (Content (mkNote 1 "A" "B" 10 10)).
Proof.
  split; [reflexivity|]. split; [reflexivity|].
  split; intros [a [b H]]; simpl in H;
    (destruct a as [|c a]; simpl in H; [discriminate|]);
    injection H as _ H; destruct a; discriminate.
Qed.

(** The wildcards of the term are not escaped either: a search for "_"
    returns a note that has no underscore anywhere. *)
Example searchNotes_underscore :
  payload (fst (searchNotes store_XY "_")) = JNotes [note_XY] /\
  no_wildcard "_" = false.
Proof. split; reflexivity. Qed.

(* ================================================================== *)
(** * Further properties of the handlers *)

(** ** Listing the lines of a note *)




(** ** Deleting a note *)

Lemma filter_idem {A} (c : A -> bool) (l : list A) : filter c (filter c l) = filter c l.
Proof.
  induction l as [|x l IH]; simpl; [reflexivity|].
  destruct (c x) eqn:E; simpl; [rewrite E, IH|]; auto.
Qed.

Lemma filter_all {A} (c : A -> bool) (l : list A) :
  (forall x, In x l -> c x = true) -> filter c l = l.
Proof.
  induction l as [|x l IH]; simpl; intros H; [reflexivity|].
  rewrite (H x (or_introl eq_refl)). f_equal. apply IH.
  intros y Hy. apply H. right. exact Hy.
Qed.

Lemma existsb_after_delete (v : Z) (l : list Note) :
  existsb (note_has_id v) (filter (fun n => negb (note_has_id v n)) l) = false.
Proof.
  induction l as [|x l IH]; simpl; [reflexivity|].
  destruct (note_has_id v x) eqn:E; simpl; [exact IH|]. rewrite E. exact IH.
Qed.

Lemma delete_missing (s : DB) (id : PathID) :
  existsb (note_has_id (sql_int id)) (notes s) = false ->
  delete_note s id = Ok s.
Proof.
  intros E. unfold delete_note. cbv zeta. rewrite E, andb_false_r.
  rewrite filter_all.
  - destruct s; reflexivity.
  - intros n Hn. destruct (note_has_id (sql_int id) n) eqn:En; [|reflexivity].
    assert (existsb (note_has_id (sql_int id)) (notes s) = true) as Habs
      by (apply existsb_exists; exists n; split; assumption).
    congruence.
Qed.

(** X2.  Deleting a note answers 200 with the message whether or not the
    note exists, and removes exactly the notes with the path's id.  After it
    a read of that id answers 404, deleting the same id again changes
    nothing, and deleting an id that no note has leaves the store as it
    was. *)
Theorem deleteNote_removes_note (s : DB) (id : PathID) :
  let s' := snd (deleteNote s id) in
  fst (deleteNote s id) =
    respondWithJSON http.StatusOK (JMap [("message", "Note deleted successfully")]%string) /\
  (forall n, In n (notes s') <-> In n (notes s) /\ ID n <> pathValue id) /\
  fst (getNote s' id) = respondWithError http.StatusNotFound "Note not found" /\
  snd (deleteNote s' id) = s' /\
  ((forall n, In n (notes s) -> ID n <> pathValue id) -> s' = s).
Proof.
  intros s'. subst s'. split; [reflexivity|]. split; [|split; [|split]].
  - intros n. simpl. rewrite filter_In. unfold note_has_id, sql_int.
    rewrite negb_true_iff, Z.eqb_neq. reflexivity.
  - unfold getNote, query_note. simpl.
    destruct (find _ _) as [n|] eqn:E; [|reflexivity].
    apply find_some in E as [Hin Hn].
    apply filter_In in Hin as [_ Hne]. rewrite Hn in Hne. discriminate.
  - unfold deleteNote at 1. rewrite delete_missing; [reflexivity|].
    apply existsb_after_delete.
  - intros Hnone. unfold deleteNote. rewrite delete_missing; [reflexivity|].
    destruct (existsb _ _) eqn:E; [|reflexivity].
    apply existsb_note_has_id in E as [n [Hin Hid]].
    exfalso. apply (Hnone n Hin Hid).
Qed.

Lemma deleteNote_removes_note_witness :
  snd (deleteNote store_XY path_5) = store_XY /\
  notes (snd (deleteNote store_XY path_1)) = [].
Proof.
  pose proof (deleteNote_removes_note store_XY path_5) as H5.
  cbv zeta in H5. destruct H5 as (_ & _ & _ & _ & Hmiss).
  split.
  - apply Hmiss. intros n [<-|[]]. discriminate.
  - reflexivity.
Defined.

(** ** Path ids *)

Lemma fold_digits_nonneg (ds : list digit) (acc : Z) :
  0 <= acc -> 0 <= fold_left (fun a d => 10 * a + digit_val d) ds acc.
Proof.
  revert acc. induction ds as [|d ds IH]; cbn [fold_left]; intros acc Hacc; [exact Hacc|].
  apply IH. destruct d; unfold digit_val; lia.
Qed.

Lemma pathValue_nonneg (p : PathID) : 0 <= pathValue p.
Proof. unfold pathValue. apply fold_digits_nonneg. lia. Qed.

(** X3.  [parseInt] on a path id: the result is always between 0 and the
    largest [int]; it is the number the digits spell when that fits an
    [int], and silently 0 when it does not; leading zeros do not matter. *)
Theorem parseInt_range (p : PathID) :
  0 <= parseInt p <= maxInt /\
  (pathValue p <= maxInt -> parseInt p = pathValue p) /\
  (maxInt < pathValue p -> parseInt p = 0) /\
  parseInt (D0, fst p :: snd p) = parseInt p.
Proof.
  pose proof (pathValue_nonneg p) as Hpos. unfold parseInt.
  split; [|split; [|split]].
  - destruct (pathValue p <=? maxInt) eqn:E; [apply Z.leb_le in E; lia|].
    unfold maxInt. lia.
  - intros H. apply Z.leb_le in H. rewrite H. reflexivity.
  - intros H. apply Z.leb_gt in H. rewrite H. reflexivity.
  - reflexivity.
Qed.

Lemma parseInt_range_witness :
  pathValue path_1 <= maxInt /\ parseInt path_1 = 1 /\
  maxInt < pathValue path_big /\ parseInt path_big = 0 /\
  parseInt path_01 = parseInt path_1.
Proof.
  assert (H1 : pathValue path_1 <= maxInt) by (vm_compute; discriminate).
  assert (H2 : maxInt < pathValue path_big) by reflexivity.
  split; [exact H1|]. split.
  - exact (proj1 (proj2 (parseInt_range path_1)) H1).
  - split; [exact H2|]. split.
    + exact (proj1 (proj2 (proj2 (parseInt_range path_big))) H2).
    + exact (proj2 (proj2 (proj2 (parseInt_range path_1)))).
Defined.

(** ** Rowids over runs of the server *)

Lemma ascending_NoDup (lo : Z) (ids : list Z) : ascending lo ids = true -> NoDup ids.
Proof.
  revert lo. induction ids as [|i ids IH]; simpl; intros lo H; [constructor|].
  apply andb_true_iff in H as [_ Hr]. constructor; [|apply (IH _ Hr)].
  intros Hin. pose proof (ascending_lower_bound _ _ Hr _ Hin). lia.
Qed.

Lemma table_ok_NoDup (ids : list Z) (seq : Z) : table_ok ids seq = true -> NoDup ids.
Proof.
  unfold table_ok. intros H. repeat (apply andb_true_iff in H as [H _]).
  apply (ascending_NoDup _ _ H).
Qed.

(** X4.  In every state the server reaches from [Initialize], the ids of the
    stored notes are pairwise distinct, and so are the ids of the stored
    lines; every id is positive and fits an [int]. *)
Theorem reachable_ids_distinct (s : DB) (t : Time) :
  reachable s t ->
  NoDup (map ID (notes s)) /\ NoDup (map LineID (lines s)) /\
  (forall n, In n (notes s) -> 0 < ID n <= maxInt) /\
  (forall l, In l (lines s) -> 0 < LineID l <= maxInt).
Proof.
  intros Hrun. pose proof (reachable_store_ok s t Hrun) as Hok.
  unfold store_ok in Hok. apply andb_true_iff in Hok as [Hn Hl].
  split; [apply (table_ok_NoDup _ _ Hn)|]. split; [apply (table_ok_NoDup _ _ Hl)|].
  apply table_ok_spec in Hn as [Hnmax Hnids]. apply table_ok_spec in Hl as [Hlmax Hlids].
  split.
  - intros n Hin. specialize (Hnids _ (in_map ID _ _ Hin)). lia.
  - intros l Hin. specialize (Hlids _ (in_map LineID _ _ Hin)). lia.
Qed.

Lemma reachable_ids_distinct_witness :
  reachable store_XY_hi 20 /\
  NoDup (map ID (notes store_XY_hi)) /\ NoDup (map LineID (lines store_XY_hi)).
Proof.
  assert (Hrun : reachable store_XY_hi 20).
  { unfold reachable, store_XY_hi.
    apply run_serve with (t := 10); [|discriminate].
    apply run_serve with (t := 0); [|discriminate].
    apply run_init. }
  destruct (reachable_ids_distinct store_XY_hi 20 Hrun) as (H1 & H2 & _).
  split; [exact Hrun|]. split; assumption.
Defined.

Lemma serve_notes_seq_mono (s : DB) (now : Time) (r : Request) :
  notes_seq s <= notes_seq (snd (serve s now r)).
Proof.
  destruct r as [|sort|body|id|id body|id|id|id body|q]; simpl; try lia.
  - unfold createNote. destruct (decodeNote body) as [note|e]; [|simpl; lia].
    unfold insert_note. cbv zeta. destruct (maxInt <=? notes_seq s); simpl; lia.
  - unfold getNote. destruct (query_note s id) as [n|[| |m]]; simpl; lia.
  - unfold updateNote. destruct (decodeNote body) as [note|e]; simpl; lia.
  - unfold addLine. destruct (decodeLine body) as [line|e]; [|simpl; lia].
    unfold insert_line. cbv zeta. destruct (maxInt <=? lines_seq s); [simpl; lia|].
    match goal with |- context [if ?c then Err _ else _] => destruct c end; simpl; lia.
  - rewrite searchNotes_store. lia.
Qed.

Lemma run_notes_seq_mono (s0 s : DB) (t : Time) :
  run s0 s t -> notes_seq s0 <= notes_seq s.
Proof.
  induction 1 as [t|s t now r Hrun IH Hle]; [lia|].
  pose proof (serve_notes_seq_mono s now r). lia.
Qed.

(** X5.  Note ids are never handed out twice.  Whatever requests are served
    after a state [s0] (deletions included), a note created afterwards gets
    an id larger than every id the [notes] table had used up to [s0] and
    larger than the id of every note then stored. *)
Theorem createNote_id_never_reused
  (s0 s : DB) (t now : Time) (f : NoteFields) :
  store_ok s0 = true -> run s0 s t -> notes_seq s < maxInt ->
  exists n,
    fst (createNote s now (Members f)) = respondWithJSON http.StatusCreated (JNote n) /\
    notes_seq s0 < ID n /\
    (forall m, In m (notes s0) -> ID m < ID n) /\
    (forall m, In m (notes s) -> ID m < ID n).
Proof.
  intros Hok0 Hrun Hroom.
  pose proof (run_notes_seq_mono s0 s t Hrun) as Hmono.
  pose proof (run_store_ok s0 s t Hok0 Hrun) as Hok.
  unfold store_ok in Hok0, Hok.
  apply andb_true_iff in Hok0 as [Hn0 _]. apply andb_true_iff in Hok as [Hn _].
  apply table_ok_spec in Hn0 as [_ Hids0]. apply table_ok_spec in Hn as [_ Hids].
  unfold createNote, insert_note. simpl.
  destruct (maxInt <=? notes_seq s) eqn:E; [apply Z.leb_le in E; lia|].
  eexists. split; [reflexivity|]. simpl. split; [lia|]. split.
  - intros m Hm. specialize (Hids0 _ (in_map ID _ _ Hm)). lia.
  - intros m Hm. specialize (Hids _ (in_map ID _ _ Hm)). lia.
Qed.

Lemma createNote_id_never_reused_witness :
  store_ok store_XY = true /\
  run store_XY (snd (serve store_XY 20 (DELETE_note path_1))) 20 /\
  exists n,
    fst (createNote (snd (serve store_XY 20 (DELETE_note path_1))) 30 (Members fields_XY)) =
      respondWithJSON http.StatusCreated (JNote n) /\
    1 < ID n.
Proof.
  assert (Hok : store_ok store_XY = true) by reflexivity.
  assert (Hrun : run store_XY (snd (serve store_XY 20 (DELETE_note path_1))) 20).
  { apply run_serve with (t := 10); [apply run_init | discriminate]. }
  assert (Hroom : notes_seq (snd (serve store_XY 20 (DELETE_note path_1))) < maxInt)
    by reflexivity.
  split; [exact Hok|]. split; [exact Hrun|].
  destruct (createNote_id_never_reused store_XY _ 20 30 fields_XY Hok Hrun Hroom)
    as [n (Hresp & Hlt & _)].
  exists n. split; [exact Hresp | exact Hlt].
Defined.

(** ** Writes followed by reads *)

Lemma getNote_of_stored (s : DB) (id : PathID) (n : Note) :
  store_ok s = true -> In n (notes s) -> ID n = pathValue id ->
  getNote s id = (respondWithJSON http.StatusOK (JNote n), s).
Proof.
  intros Hok Hin Hid. unfold getNote, query_note, sql_int.
  pose proof (find_note_has_id (pathValue id) (notes s)) as Hfind.
  destruct (find (note_has_id (pathValue id)) (notes s)) as [m|].
  - destruct Hfind as [Hm Hmid].
    rewrite (stored_note_unique s m n Hok Hm Hin); [reflexivity | congruence].
  - exfalso. apply (Hfind n Hin Hid).
Qed.

Lemma store_ok_createNote (s : DB) (now : Time) (b : Body NoteFields) :
  store_ok s = true -> store_ok (snd (createNote s now b)) = true.
Proof. apply (store_ok_serve s now (POST_notes b)). Qed.

Lemma store_ok_updateNote (s : DB) (now : Time) (id : PathID) (b : Body NoteFields) :
  store_ok s = true -> store_ok (snd (updateNote s now id b)) = true.
Proof. apply (store_ok_serve s now (PUT_note id b)). Qed.

Lemma store_ok_addLine (s : DB) (now : Time) (id : PathID) (b : Body LineFields) :
  store_ok s = true -> store_ok (snd (addLine s now id b)) = true.
Proof. apply (store_ok_serve s now (POST_lines id b)). Qed.

(** X6.  A created note can be read back: after a successful create, a GET
    of the returned id answers 200 with the very note the create returned,
    and that note is in the listing of all notes. *)
Theorem createNote_then_getNote
  (s : DB) (now : Time) (f : NoteFields) (id : PathID) :
  store_ok s = true -> notes_seq s < maxInt -> pathValue id = notes_seq s + 1 ->
  exists n,
    fst (createNote s now (Members f)) = respondWithJSON http.StatusCreated (JNote n) /\
    ID n = pathValue id /\
    fst (getNote (snd (createNote s now (Members f))) id) =
      respondWithJSON http.StatusOK (JNote n) /\
    exists rows,
      fst (getAllNotes (snd (createNote s now (Members f))) "") =
        respondWithJSON http.StatusOK (JNotes rows) /\
      In n rows.
Proof.
  intros Hok Hroom Hid.
  pose proof (store_ok_createNote s now (Members f) Hok) as Hok'.
  revert Hok'. unfold createNote, insert_note. simpl.
  destruct (maxInt <=? notes_seq s) eqn:E; [apply Z.leb_le in E; lia|].
  simpl. intros Hok'.
  match goal with |- context [JNote ?x] => set (n := x) in * end.
  assert (Hin : In n (notes s ++ [n])) by (apply in_app_iff; right; left; reflexivity).
  exists n. split; [reflexivity|]. split; [symmetry; exact Hid|]. split.
  - rewrite (getNote_of_stored _ id n Hok'); [reflexivity | exact Hin |].
    rewrite Hid. reflexivity.
  - eexists. split; [reflexivity|].
    apply (Permutation_in _ (Permutation_sym (order_by_desc_perm LastModified _))).
    exact Hin.
Qed.

Lemma createNote_then_getNote_witness :
  store_ok Initialize = true /\ notes_seq Initialize < maxInt /\
  pathValue path_1 = notes_seq Initialize + 1 /\
  fst (getNote (snd (createNote Initialize 10 (Members fields_XY))) path_1) =
    respondWithJSON http.StatusOK (JNote note_XY).
Proof.
  assert (H1 : store_ok Initialize = true) by reflexivity.
  assert (H2 : notes_seq Initialize < maxInt) by reflexivity.
  assert (H3 : pathValue path_1 = notes_seq Initialize + 1) by reflexivity.
  split; [exact H1|]. split; [exact H2|]. split; [exact H3|].
  destruct (createNote_then_getNote Initialize 10 fields_XY path_1 H1 H2 H3)
    as [n (Hcreate & _ & Hget & _)].
  rewrite Hget. f_equal. f_equal.
  injection Hcreate as Hn. symmetry. exact Hn.
Defined.

(** X7.  An updated note reads back with the body's title and content and
    the update's clock reading as last_modified, under its own id and its
    original created_at (which the update's own response does not show). *)
Theorem updateNote_then_getNote
  (s : DB) (now : Time) (id : PathID) (f : NoteFields) (n : Note) :
  store_ok s = true -> In n (notes s) -> ID n = pathValue id ->
  fst (getNote (snd (updateNote s now id (Members f))) id) =
    respondWithJSON http.StatusOK
      (JNote (mkNote (ID n)
                     (or_zero ""%string (j_title f))
                     (or_zero ""%string (j_content f))
                     (CreatedAt n) now)).
Proof.
  intros Hok Hin Hid.
  pose proof (store_ok_updateNote s now id (Members f) Hok) as Hok'.
  rewrite (getNote_of_stored _ id
             (set_note (or_zero ""%string (j_title f))
                       (or_zero ""%string (j_content f)) now n) Hok').
  - reflexivity.
  - unfold updateNote, update_note, sql_int. simpl.
    apply update_where_hit; [exact Hin | apply Z.eqb_eq, Hid].
  - exact Hid.
Qed.

Lemma updateNote_then_getNote_witness :
  store_ok store_XY = true /\ In note_XY (notes store_XY) /\
  ID note_XY = pathValue path_1 /\
  fst (getNote (snd (updateNote store_XY 30 path_1 (Members fields_with_created_at))) path_1) =
    respondWithJSON http.StatusOK (JNote (mkNote 1 "T" "" 10 30)).
Proof.
  assert (H1 : store_ok store_XY = true) by reflexivity.
  assert (H2 : In note_XY (notes store_XY)) by (left; reflexivity).
  assert (H3 : ID note_XY = pathValue path_1) by reflexivity.
  split; [exact H1|]. split; [exact H2|]. split; [exact H3|].
  exact (updateNote_then_getNote store_XY 30 path_1 fields_with_created_at note_XY H1 H2 H3).
Defined.

(** X8.  After a line is appended to a stored note, a GET of the note shows
    the note as it was except for last_modified, which is the clock reading
    the line was stamped with. *)
Theorem addLine_then_getNote
  (s : DB) (now : Time) (id : PathID) (f : LineFields) (n : Note) :
  store_ok s = true -> In n (notes s) -> ID n = pathValue id ->
  lines_seq s < maxInt ->
  code (fst (addLine s now id (Members f))) = 201 /\
  fst (getNote (snd (addLine s now id (Members f))) id) =
    respondWithJSON http.StatusOK
      (JNote (mkNote (ID n) (Title n) (Content n) (CreatedAt n) now)).
Proof.
  intros Hok Hin Hid Hroom.
  pose proof (store_ok_addLine s now id (Members f) Hok) as Hok'.
  assert (Hex : existsb (note_has_id (pathValue id)) (notes s) = true).
  { apply existsb_note_has_id. exists n. split; assumption. }
  assert (Hrun : addLine s now id (Members f) =
                 (respondWithJSON http.StatusCreated
                    (JLine (mkLine (lines_seq s + 1) (pathValue id)
                                   (or_zero ""%string (j_line_content f)) now)),
                  mkDB (foreign_keys s)
                       (update_where (note_has_id (pathValue id))
                                     (set_last_modified now) (notes s))
                       (notes_seq s)
                       (lines s ++ [mkLine (lines_seq s + 1) (pathValue id)
                                           (or_zero ""%string (j_line_content f)) now])
                       (lines_seq s + 1))).
  { unfold addLine, insert_line, touch_note, sql_int. simpl.
    rewrite (parseInt_of_stored s n id Hok Hin Hid), Hex.
    destruct (maxInt <=? lines_seq s) eqn:E; [apply Z.leb_le in E; lia|].
    rewrite andb_false_r. reflexivity. }
  rewrite Hrun in *. split; [reflexivity|]. simpl fst in *. simpl snd in *.
  rewrite (getNote_of_stored _ id (set_last_modified now n) Hok').
  - reflexivity.
  - simpl. apply update_where_hit; [exact Hin | apply Z.eqb_eq, Hid].
  - exact Hid.
Qed.

Lemma addLine_then_getNote_witness :
  store_ok store_XY = true /\ In note_XY (notes store_XY) /\
  ID note_XY = pathValue path_1 /\ lines_seq store_XY < maxInt /\
  fst (getNote (snd (addLine store_XY 20 path_1 (Members fields_hi))) path_1) =
    respondWithJSON http.StatusOK (JNote (mkNote 1 "X" "Y" 10 20)).
Proof.
  assert (H1 : store_ok store_XY = true) by reflexivity.
  assert (H2 : In note_XY (notes store_XY)) by (left; reflexivity).
  assert (H3 : ID note_XY = pathValue path_1) by reflexivity.
  assert (H4 : lines_seq store_XY < maxInt) by reflexivity.
  split; [exact H1|]. split; [exact H2|]. split; [exact H3|]. split; [exact H4|].
  exact (proj2 (addLine_then_getNote store_XY 20 path_1 fields_hi note_XY H1 H2 H3 H4)).
Defined.

Lemma filter_snoc_miss {A} (c : A -> bool) (l : list A) (x : A) :
  c x = false -> filter c (l ++ [x]) = filter c l.
Proof.
  intros H. rewrite filter_app. simpl. rewrite H. apply app_nil_r.
Qed.

(** X9.  An appended line is listed: when an append under a path id that
    fits an [int] answers 201, the listing of that note's lines afterwards
    consists of the returned line and the lines listed before, and the
    listings of all other notes are unchanged. *)
Theorem addLine_then_getLines
  (s : DB) (now : Time) (id : PathID) (f : LineFields) :
  pathValue id <= maxInt ->
  code (fst (addLine s now id (Members f))) = 201 ->
  exists line rows,
    fst (addLine s now id (Members f)) = respondWithJSON http.StatusCreated (JLine line) /\
    fst (getLines (snd (addLine s now id (Members f))) id) =
      respondWithJSON http.StatusOK (JLines rows) /\
    In line rows /\
    (forall l, In l rows <-> l = line \/ (In l (lines s) /\ NoteID l = pathValue id)) /\
    (forall id', pathValue id' <> pathValue id ->
       fst (getLines (snd (addLine s now id (Members f))) id') = fst (getLines s id')).
Proof.
  intros Hfit. unfold addLine, insert_line. simpl.
  rewrite (parseInt_in_range id Hfit).
  destruct (maxInt <=? lines_seq s); [discriminate|].
  match goal with |- context [if ?c then Err _ else _] => destruct c end; [discriminate|].
  simpl. intros _.
  set (line := mkLine (lines_seq s + 1) (pathValue id)
                      (or_zero ""%string (j_line_content f)) now).
  assert (Hrows : forall l,
            In l (order_by_asc Timestamp
                    (filter (line_of_note (pathValue id)) (lines s ++ [line]))) <->
            l = line \/ (In l (lines s) /\ NoteID l = pathValue id)).
  { intros l. split.
    - intros H. apply (Permutation_in _ (order_by_asc_perm Timestamp _)) in H.
      apply filter_In in H as [H1 H2]. apply in_app_iff in H1 as [H1|[<-|[]]].
      + right. split; [exact H1 | apply Z.eqb_eq, H2].
      + left. reflexivity.
    - intros H.
      apply (Permutation_in _ (Permutation_sym (order_by_asc_perm Timestamp _))).
      apply filter_In. destruct H as [->|[H1 H2]].
      + split; [apply in_app_iff; right; left; reflexivity|].
        unfold line_of_note. simpl. apply Z.eqb_refl.
      + split; [apply in_app_iff; left; exact H1 | apply Z.eqb_eq, H2]. }
  exists line, (order_by_asc Timestamp
                  (filter (line_of_note (pathValue id)) (lines s ++ [line]))).
  split; [reflexivity|]. split; [reflexivity|]. split; [|split].
  - apply Hrows. left. reflexivity.
  - exact Hrows.
  - intros id' Hne. unfold getLines, query_lines, sql_int. simpl.
    rewrite filter_snoc_miss; [reflexivity|].
    unfold line_of_note, line. cbn [NoteID]. apply Z.eqb_neq. congruence.
Qed.

Lemma addLine_then_getLines_witness :
  pathValue path_1 <= maxInt /\
  code (fst (addLine store_XY 20 path_1 (Members fields_hi))) = 201 /\
  exists line rows,
    fst (getLines (snd (addLine store_XY 20 path_1 (Members fields_hi))) path_1) =
      respondWithJSON http.StatusOK (JLines rows) /\
    In line rows /\ LineContent line = "hi"%string.
Proof.
  assert (H1 : pathValue path_1 <= maxInt) by (vm_compute; discriminate).
  assert (H2 : code (fst (addLine store_XY 20 path_1 (Members fields_hi))) = 201)
    by reflexivity.
  split; [exact H1|]. split; [exact H2|].
  destruct (addLine_then_getLines store_XY 20 path_1 fields_hi H1 H2)
    as [line [rows (Hresp & Hget & Hin & _)]].
  exists line, rows. split; [exact Hget|]. split; [exact Hin|].
  injection Hresp as Hl. rewrite <- Hl. reflexivity.
Defined.

Lemma no_note_beyond_maxInt (s : DB) (v : Z) :
  store_ok s = true -> maxInt < v -> existsb (note_has_id v) (notes s) = false.
Proof.
  intros Hok Hv. destruct (existsb (note_has_id v) (notes s)) eqn:E; [|reflexivity].
  apply existsb_note_has_id in E as [n [Hin Hid]].
  unfold store_ok in Hok. apply andb_true_iff in Hok as [Hn _].
  apply table_ok_spec in Hn as [Hmax Hids].
  specialize (Hids _ (in_map ID _ _ Hin)). lia.
Qed.

(** X10.  A path id too large for an [int] is not rejected by the append: on
    the connection as [Initialize] opens it the request answers 201, but the
    line is stored under note_id 0, no note is touched, and the line does not
    show up in the listing for the path it was posted to. *)
Theorem addLine_overflowing_id
  (s : DB) (now : Time) (id : PathID) (f : LineFields) :
  store_ok s = true -> foreign_keys s = false ->
  lines_seq s < maxInt -> maxInt < pathValue id ->
  let line := mkLine (lines_seq s + 1) 0 (or_zero ""%string (j_line_content f)) now in
  fst (addLine s now id (Members f)) = respondWithJSON http.StatusCreated (JLine line) /\
  notes (snd (addLine s now id (Members f))) = notes s /\
  lines (snd (addLine s now id (Members f))) = lines s ++ [line] /\
  fst (getLines (snd (addLine s now id (Members f))) id) = fst (getLines s id).
Proof.
  intros Hok Hfk Hroom Hbig line.
  assert (Hp : parseInt id = 0).
  { unfold parseInt. apply Z.leb_gt in Hbig. rewrite Hbig. reflexivity. }
  unfold addLine, insert_line, touch_note. simpl. rewrite Hp, Hfk.
  destruct (maxInt <=? lines_seq s) eqn:E; [apply Z.leb_le in E; lia|].
  simpl. fold line.
  rewrite (update_where_none _ _ _ (no_note_beyond_maxInt s (sql_int id) Hok Hbig)).
  split; [reflexivity|]. split; [reflexivity|]. split; [reflexivity|].
  unfold getLines, query_lines, sql_int. simpl.
  rewrite filter_snoc_miss; [reflexivity|].
  unfold line_of_note, line. cbn [NoteID]. apply Z.eqb_neq. unfold maxInt in Hbig. lia.
Qed.

Lemma addLine_overflowing_id_witness :
  store_ok store_XY = true /\ foreign_keys store_XY = false /\
  lines_seq store_XY < maxInt /\ maxInt < pathValue path_big /\
  fst (addLine store_XY 20 path_big (Members fields_hi)) =
    respondWithJSON http.StatusCreated (JLine (mkLine 1 0 "hi" 20)) /\
  fst (getLines (snd (addLine store_XY 20 path_big (Members fields_hi))) path_big) =
    respondWithJSON http.StatusOK (JLines []).
Proof.
  assert (H1 : store_ok store_XY = true) by reflexivity.
  assert (H2 : foreign_keys store_XY = false) by reflexivity.
  assert (H3 : lines_seq store_XY < maxInt) by reflexivity.
  assert (H4 : maxInt < pathValue path_big) by reflexivity.
  split; [exact H1|]. split; [exact H2|]. split; [exact H3|]. split; [exact H4|].
  destruct (addLine_overflowing_id store_XY 20 path_big fields_hi H1 H2 H3 H4)
    as (Hresp & _ & _ & Hget).
  split; [exact Hresp|]. rewrite Hget. reflexivity.
Defined.

(** X11.  Stored lines are never rewritten.  Whatever request is served,
    every line in the store afterwards was either there before or is the one
    line an append created (with the next rowid and the request's clock
    reading); and a line that was there before is still there, unless its
    note was deleted over a connection that enforces foreign keys. *)
Theorem serve_keeps_lines (s : DB) (now : Time) (r : Request) :
  (forall l, In l (lines (snd (serve s now r))) ->
     In l (lines s) \/
     (exists id body, r = POST_lines id body /\
        LineID l = lines_seq s + 1 /\ NoteID l = parseInt id /\ Timestamp l = now)) /\
  (forall l, In l (lines s) ->
     In l (lines (snd (serve s now r))) \/
     (exists id, r = DELETE_note id /\ foreign_keys s = true /\ NoteID l = pathValue id)).
Proof.
  destruct r as [|sort|body|id|id body|id|id|id body|q]; simpl;
    try (split; intros l Hl; left; exact Hl).
  - unfold createNote. destruct (decodeNote body) as [note|e];
      [|split; intros l Hl; left; exact Hl].
    unfold insert_note. cbv zeta.
    destruct (maxInt <=? notes_seq s); split; intros l Hl; left; exact Hl.
  - unfold getNote. destruct (query_note s id) as [n|[| |m]];
      split; intros l Hl; left; exact Hl.
  - unfold updateNote. destruct (decodeNote body) as [note|e];
      split; intros l Hl; left; exact Hl.
  - destruct (foreign_keys s && existsb (note_has_id (sql_int id)) (notes s)) eqn:E.
    + apply andb_true_iff in E as [Hfk _]. split; intros l Hl.
      * left. apply filter_In in Hl as [Hl _]. exact Hl.
      * destruct (line_of_note (sql_int id) l) eqn:El.
        -- right. exists id. split; [reflexivity|]. split; [exact Hfk|].
           apply Z.eqb_eq, El.
        -- left. apply filter_In. split; [exact Hl|]. rewrite El. reflexivity.
    + split; intros l Hl; left; exact Hl.
  - unfold addLine. destruct (decodeLine body) as [line|e];
      [|split; intros l Hl; left; exact Hl].
    unfold insert_line. cbv zeta.
    destruct (maxInt <=? lines_seq s); [split; intros l Hl; left; exact Hl|].
    match goal with |- context [if ?c then Err _ else _] => destruct c end;
      [split; intros l Hl; left; exact Hl|].
    simpl. split; intros l Hl.
    + apply in_app_iff in Hl as [Hl|[<-|[]]]; [left; exact Hl|].
      right. exists id, body. repeat split.
    + left. apply in_app_iff. left. exact Hl.
  - rewrite searchNotes_store. split; intros l Hl; left; exact Hl.
Qed.

Lemma serve_keeps_lines_witness :
  In (mkLine 1 1 "hi" 20) (lines store_XY_hi) /\
  In (mkLine 1 1 "hi" 20) (lines (snd (serve store_XY_hi 30 (DELETE_note path_1)))).
Proof.
  assert (Hin : In (mkLine 1 1 "hi" 20) (lines store_XY_hi)) by (left; reflexivity).
  split; [exact Hin|].
  destruct (proj2 (serve_keeps_lines store_XY_hi 30 (DELETE_note path_1)) _ Hin)
    as [H|[id (_ & Hfk & _)]]; [exact H | discriminate Hfk].
Defined.

(** ** Listing and searching *)

(** X12.  The listing does not reject an unknown sort key: every value of
    the sort parameter other than "creation_date" gives the default listing
    by last_modified. *)
Theorem getAllNotes_unknown_sort (s : DB) (sort : string) :
  sort <> "creation_date"%string -> getAllNotes s sort = getAllNotes s "".
Proof.
  intros Hne. apply String.eqb_neq in Hne. unfold getAllNotes.
  destruct (String.eqb sort "") eqn:E; [reflexivity|].
  rewrite Hne. reflexivity.
Qed.

Lemma getAllNotes_unknown_sort_witness :
  "title"%string <> "creation_date"%string /\
  getAllNotes store_XY_hi "title" = getAllNotes store_XY_hi "".
Proof.
  assert (H : "title"%string <> "creation_date"%string) by discriminate.
  split; [exact H | exact (getAllNotes_unknown_sort store_XY_hi "title" H)].
Defined.



Lemma like_all_percent (p s : list N) :
  p <> [] -> forallb is_percent p = true -> like p s = true.
Proof.
  revert s. induction p as [|c p IH]; intros s Hne Hall; [contradiction|].
  simpl in Hall. apply andb_true_iff in Hall as [Hc Hp].
  simpl. rewrite Hc. destruct p as [|c' p].
  - clear. induction s as [|d s IHs]; simpl; [reflexivity | exact IHs].
  - apply any_suffix_true. intros r. apply IH; [discriminate | exact Hp].
Qed.

Lemma all_percent_chars (q : string) :
  all_percent q = true ->
  no_nul q = true /\ forallb is_percent (sql_chars q) = true.
Proof.
  unfold all_percent, no_nul, sql_chars.
  induction (list_ascii_of_string q) as [|b l IH]; simpl; intros H; [split; reflexivity|].
  apply andb_true_iff in H as [Hb Hl]. destruct (IH Hl) as [IH1 IH2].
  apply N.eqb_eq in Hb. rewrite Hb. simpl. split; [exact IH1 | exact IH2].
Qed.

(** X14.  The wildcard [%] is not escaped in the search term: a search for
    a term of at most 49998 bytes made of [%] only returns every note of the
    store, exactly as the default listing does. *)
Theorem searchNotes_percent_lists_all (s : DB) (q : string) :
  q <> ""%string -> Z.of_nat (String.length q) <= 49998 -> all_percent q = true ->
  exists rows,
    code (fst (searchNotes s q)) = 200 /\
    payload (fst (searchNotes s q)) = JNotes rows /\
    payload (fst (getAllNotes s "")) = JNotes rows /\
    Permutation rows (notes s).
Proof.
  intros Hq Hlen Hall. destruct (all_percent_chars q Hall) as [Hn Hp].
  exists (order_by_desc LastModified (notes s)).
  rewrite (searchNotes_fits s q Hq (pattern_fits q Hlen)). cbn [fst snd code payload].
  split; [reflexivity|]. split; [|split; [reflexivity | apply order_by_desc_perm]].
  rewrite filter_all; [reflexivity|].
  intros n _. unfold LIKE. rewrite (sql_chars_pattern q Hn).
  rewrite like_all_percent; [reflexivity | discriminate |].
  cbn [forallb]. rewrite forallb_app, Hp. reflexivity.
Qed.

Lemma searchNotes_percent_lists_all_witness :
  "%"%string <> ""%string /\ Z.of_nat (String.length "%") <= 49998 /\
  all_percent "%" = true /\
  payload (fst (searchNotes store_XY "%")) = JNotes [note_XY].
Proof.
  assert (H1 : "%"%string <> ""%string) by discriminate.
  assert (H2 : Z.of_nat (String.length "%") <= 49998) by (vm_compute; discriminate).
  assert (H3 : all_percent "%" = true) by reflexivity.
  split; [exact H1|]. split; [exact H2|]. split; [exact H3|].
  destruct (searchNotes_percent_lists_all store_XY "%" H1 H2 H3)
    as [rows (_ & Hs & Hl & _)].
  rewrite Hs. rewrite <- Hl. reflexivity.
Defined.

(** ** Safe methods and server-assigned members *)

(** X15.  The GET routes are safe: serving one never changes the store, and
    its answer does not depend on the clock. *)
Theorem serve_GET_safe (s : DB) (now now' : Time) (r : Request) :
  is_GET r = true ->
  snd (serve s now r) = s /\ fst (serve s now r) = fst (serve s now' r).
Proof.
  destruct r as [|sort|body|id|id body|id|id|id body|q]; simpl;
    try discriminate; intros _.
  - split; reflexivity.
  - split; reflexivity.
  - unfold getNote. destruct (query_note s id) as [n|[| |m]]; split; reflexivity.
  - split; reflexivity.
  - split; [apply searchNotes_store | reflexivity].
Qed.

Lemma serve_GET_safe_witness :
  is_GET (GET_search "x") = true /\
  snd (serve store_XY_hi 30 (GET_search "x")) = store_XY_hi.
Proof.
  assert (H : is_GET (GET_search "x") = true) by reflexivity.
  split; [exact H|].
  exact (proj1 (serve_GET_safe store_XY_hi 30 30 (GET_search "x") H)).
Defined.

(** X16.  A client cannot set the server-assigned members.  What a create
    stores and answers depends only on the body's title and content (an id,
    created_at or last_modified in the body is ignored); what an append
    stores and answers depends only on the body's content; and what an
    update stores depends only on the body's title and content. *)
Theorem server_assigned_members
  (s : DB) (now : Time) (id : PathID) (f f' : NoteFields) (g g' : LineFields) :
  (j_title f = j_title f' -> j_content f = j_content f' ->
   createNote s now (Members f) = createNote s now (Members f')) /\
  (j_line_content g = j_line_content g' ->
   addLine s now id (Members g) = addLine s now id (Members g')) /\
  (j_title f = j_title f' -> j_content f = j_content f' ->
   snd (updateNote s now id (Members f)) = snd (updateNote s now id (Members f'))).
Proof.
  split; [|split].
  - intros Ht Hc. unfold createNote. simpl. rewrite Ht, Hc.
    destruct (String.eqb (or_zero ""%string (j_title f')) ""); simpl;
      destruct (insert_note s _ _ now now) as [[i s']|e]; reflexivity.
  - intros Hc. unfold addLine. simpl. rewrite Hc.
    destruct (insert_line s _ _ now) as [[i s']|e]; reflexivity.
  - intros Ht Hc. unfold updateNote. simpl. rewrite Ht, Hc. reflexivity.
Qed.

Lemma server_assigned_members_witness :
  createNote store_XY 30 (Members fields_XY_forged) =
    createNote store_XY 30 (Members fields_XY) /\
  addLine store_XY 30 path_1 (Members fields_hi_forged) =
    addLine store_XY 30 path_1 (Members fields_hi).
Proof.
  pose proof (server_assigned_members store_XY 30 path_1
                fields_XY_forged fields_XY fields_hi_forged fields_hi) as (Hc & Ha & _).
  split; [apply Hc; reflexivity | apply Ha; reflexivity].
Defined.

(** ** Listing the notes *)



(** ** A search term that is too long *)

Lemma scan_where_too_complex (p : string) (n : Note) (l : list Note) :
  too_complex p = true ->
  scan_where (search_match p p) (n :: l) = Err (ErrStore "LIKE or GLOB pattern too complex").
Proof.
  intros H. cbn [scan_where]. unfold search_match, LIKE_checked. rewrite H. reflexivity.
Qed.

(** X20.  A search term of 49999 bytes or more makes the pattern longer than
    SQLite accepts.  The statement then fails while its rows are read, the
    handler does not look at that error, and the search answers 200 with an
    empty list, whatever the store holds. *)
Theorem searchNotes_long_term (s : DB) (q : string) :
  49998 < Z.of_nat (String.length q) ->
  code (fst (searchNotes s q)) = 200 /\
  payload (fst (searchNotes s q)) = JNotes [] /\
  snd (searchNotes s q) = s.
Proof.
  intros Hlen.
  assert (Hq : String.eqb q "" = false).
  { apply String.eqb_neq. intros ->. simpl in Hlen. lia. }
  assert (Hbig : too_complex ("%" ++ q ++ "%") = true).
  { unfold too_complex. rewrite !string_length_app. simpl String.length.
    apply Z.ltb_lt. lia. }
  unfold searchNotes, query_search. rewrite Hq.
  destruct (notes s) as [|n l]; [repeat split|].
  rewrite (scan_where_too_complex _ n l Hbig). repeat split.
Qed.

Lemma searchNotes_long_term_witness :
  49998 < Z.of_nat (String.length long_term) /\
  notes store_XY <> [] /\
  payload (fst (searchNotes store_XY long_term)) = JNotes [].
Proof.
  assert (H : 49998 < Z.of_nat (String.length long_term)) by (vm_compute; reflexivity).
  split; [exact H|]. split; [discriminate|].
  exact (proj1 (proj2 (searchNotes_long_term store_XY long_term H))).
Defined.

(** ** Rowids when requests overlap *)

Lemma store_ok_resume (s : DB) (k : task) :
  store_ok s = true -> store_ok (fst (resume s k)) = true.
Proof.
  intros Hok. pose proof Hok as Hok'. unfold store_ok in Hok'.
  apply andb_true_iff in Hok' as [Hn Hl].
  destruct k as [note|id note|noteID line|noteID line]; simpl.
  - unfold insert_note. destruct (maxInt <=? notes_seq s) eqn:E; [exact Hok|].
    simpl. unfold store_ok. simpl. rewrite Hl, andb_true_r.
    rewrite map_app. simpl. apply table_ok_insert; [exact Hn|].
    apply Z.leb_gt in E. exact E.
  - unfold store_ok. simpl. rewrite update_where_ids by reflexivity. exact Hok.
  - unfold insert_line. destruct (maxInt <=? lines_seq s) eqn:E; [exact Hok|].
    match goal with |- context [if ?c then Err _ else _] => destruct c end;
      [exact Hok|].
    simpl. unfold store_ok. simpl. rewrite Hn. simpl.
    rewrite map_app. simpl. apply table_ok_insert; [exact Hl|].
    apply Z.leb_gt in E. exact E.
  - unfold store_ok. simpl. rewrite update_where_ids by reflexivity. exact Hok.
Qed.

Lemma concurrent_store_ok (s : DB) (ks : list task) (t : Time) :
  concurrent s ks t -> store_ok s = true.
Proof.
  induction 1 as [t|s ks t now r Hc IH Hle|s ks1 k ks2 t Hc IH
                 |s ks1 k ks2 t Hc IH|s ks t id Hc IH].
  - reflexivity.
  - exact IH.
  - apply store_ok_resume, IH.
  - exact IH.
  - apply (store_ok_serve s t (DELETE_note id) IH).
Qed.


